(** * teams_migrator: the duplicate-team resolver of [migrator.js]

    A shallow embedding of the mongo-shell script [migrator.js] and the
    properties of its classifier ([checkDups]), of its identifier
    computation ([createTeamCode], [getLowestLevel]) and of its driver
    ([main]).

    Conventions of the embedding:
    - a JavaScript string is the list of its UTF-16 code units, so that
      [length] is the script's [.length] and the whitespace class of the
      regular expression [\s] is exact;
    - an object used as a map ([business-objects]) is an association list
      in the engine's own enumeration order, because [Object.keys] and the
      tie-breaking of [sort] depend on that order;
    - [undefined] is [None] (or [VUndefined] where truthiness matters);
    - the script's effects (console output, calls into the [db] object,
      the global [dryrun], thrown exceptions) are threaded through a small
      state-and-error monad [M] over a [world]. *)

From Stdlib Require Import List NArith ZArith Lia Bool String Ascii.
From Stdlib Require Import DecimalString Permutation Sorted.
Import ListNotations.

Set Implicit Arguments.

(** ** JavaScript values used by the script *)

Module JS.

(** A UTF-16 code unit and a string of them. *)
Definition char16 := N.
Definition jsstring := list char16.

(** The code units of an ASCII literal of the source. *)
Definition utf16 (s : string) : jsstring :=
  map N_of_ascii (list_ascii_of_string s).

(** [s.length]. *)
Definition str_length (s : jsstring) : nat := List.length s.

Fixpoint str_eqb (a b : jsstring) : bool :=
  match a, b with
  | [], [] => true
  | x :: a', y :: b' => N.eqb x y && str_eqb a' b'
  | _, _ => false
  end.

(** The values a global of the shell may hold, as far as the script tells
    them apart: only [typeof v === "undefined"] and truthiness are used. *)
Inductive value : Type :=
| VUndefined
| VBool (b : bool)
| VNum (n : Z)
| VStr (s : jsstring).

(** ToBoolean. *)
Definition truthy (v : value) : bool :=
  match v with
  | VUndefined => false
  | VBool b => b
  | VNum n => negb (Z.eqb n 0)
  | VStr s => negb (str_eqb s [])
  end.

Definition is_undefined (v : value) : bool :=
  match v with VUndefined => true | _ => false end.

(** [===] on values that are either [undefined] or a string. *)
Definition opt_str_eqb (a b : option jsstring) : bool :=
  match a, b with
  | None, None => true
  | Some x, Some y => str_eqb x y
  | _, _ => false
  end.

(** ToString of a possibly-undefined string used as a property key. *)
Definition to_property_key (k : option jsstring) : jsstring :=
  match k with
  | Some s => s
  | None => utf16 "undefined"
  end.

(** ToString of a non-negative integer (an array length). *)
Definition nat_to_str (n : nat) : jsstring :=
  utf16 (NilEmpty.string_of_uint (Nat.to_uint n)).

(** [Array.prototype.join]: the first element, then separator and element
    for each further one; the empty array gives the empty string. *)
Fixpoint join_from (sep acc : jsstring) (l : list jsstring) : jsstring :=
  match l with
  | [] => acc
  | x :: r => join_from sep (acc ++ sep ++ x) r
  end.

Definition join (sep : jsstring) (l : list jsstring) : jsstring :=
  match l with
  | [] => []
  | x :: r => join_from sep x r
  end.

(** The class [\s] of a regular expression: WhiteSpace and LineTerminator
    of the language (TAB, LF, VT, FF, CR, SP, NBSP, the space separators
    of Unicode, LS, PS and the byte-order mark). U+180E, a space separator
    before Unicode 6.3, is not counted. *)
Definition is_space (c : char16) : bool :=
  ((9 <=? c) && (c <=? 13) || (c =? 32) || (c =? 160) || (c =? 5760)
   || (8192 <=? c) && (c <=? 8202) || (c =? 8232) || (c =? 8233)
   || (c =? 8239) || (c =? 8287) || (c =? 12288) || (c =? 65279))%N.

Definition underscore : char16 := 95%N.

(** [s.replace(/\s/g, "_")]. *)
Definition replace_spaces (s : jsstring) : jsstring :=
  map (fun c => if is_space c then underscore else c) s.

(** [Array.prototype.sort] with a comparison function, as a stable
    insertion sort: [x] goes before [y] when [cmp x y <= 0]. The language
    leaves the algorithm to the engine; [any_sort_head_longest] below
    covers every other choice. *)
Section Sort.
Variable A : Type.
Variable cmp : A -> A -> Z.

Fixpoint insert_sorted (x : A) (l : list A) : list A :=
  match l with
  | [] => [x]
  | y :: r => if (cmp x y <=? 0)%Z then x :: l else y :: insert_sorted x r
  end.

Fixpoint sort (l : list A) : list A :=
  match l with
  | [] => []
  | x :: r => insert_sorted x (sort r)
  end.
End Sort.

(** Property lookup in an object used as a map; a missing key reads as
    [undefined]. *)
Fixpoint lookup (A : Type) (k : jsstring) (o : list (jsstring * A)) : option A :=
  match o with
  | [] => None
  | (k', v) :: r => if str_eqb k k' then Some v else lookup k r
  end.

End JS.
Import JS.

(** ** Data model *)

(** A document of the [teams] collection. *)
Record team : Type := mkTeam {
  _id : jsstring;
  name : jsstring;
  code : jsstring;
  defaultTeam : bool;
  business_objects : list (jsstring * list jsstring);
  users : list jsstring
}.

(** [teamToMigrate.code = newCode]. *)
Definition set_code (t : team) (c : jsstring) : team :=
  mkTeam (_id t) (name t) c (defaultTeam t) (business_objects t) (users t).

(** What the script can throw: [new Error(msg)], or the engine's TypeError
    on a property access through [undefined]. *)
Inductive exn : Type :=
| Error (msg : jsstring)
| TypeError.

Inductive result (A : Type) : Type :=
| Ok (a : A)
| Throw (e : exn).
Arguments Ok {A} a.
Arguments Throw {A} e.

(** ** Pure helpers of the script *)

(** The comparison function of [getLowestLevel]: [b.length - a.length]. *)
Definition by_length_desc (a b : jsstring) : Z :=
  (Z.of_nat (str_length b) - Z.of_nat (str_length a))%Z.

(** [Object.keys(boh)]. *)
Definition Object_keys (A : Type) (o : list (jsstring * A)) : list jsstring :=
  map fst o.

(** [getLowestLevel(team)]: the head of the keys sorted by decreasing
    length; [undefined] for an object without keys. Reading
    ["business-objects"] through an [undefined] team throws. *)
Definition getLowestLevel (t : option team) : result (option jsstring) :=
  match t with
  | None => Throw TypeError
  | Some team =>
      let boh := business_objects team in
      let hierarchy := Object_keys boh in
      Ok (hd_error (sort by_length_desc hierarchy))
  end.

(** [createTeamCode(team)], with the global [domain] as a parameter. *)
Definition createTeamCode (domain : jsstring) (t : team) : result jsstring :=
  match getLowestLevel (Some t) with
  | Throw e => Throw e
  | Ok lowestLevel =>
      match lookup (to_property_key lowestLevel) (business_objects t) with
      | None => Throw TypeError
      | Some lowestLevelBOs =>
          let guidString := join (utf16 "-") lowestLevelBOs in
          Ok (replace_spaces (join (utf16 "-") [domain; guidString; name t]))
      end
  end.

(** ** The shell: globals, the [db] object, console output *)

(** A row of the aggregation result, as [main] reads it: [_id], [count] and
    [defaultTeam]. A property the row does not carry reads as
    [VUndefined]. *)
Record group : Type := mkGroup {
  group_id : jsstring;
  count : Z;
  group_defaultTeam : value
}.

(** What the script does to the outside, in the order it does it. *)
Inductive event : Type :=
| Print (line : jsstring)
| PrintJson (query_id : jsstring) (document : team)
| GetName
| Aggregate
| Find (c : jsstring)
| Update (query_id : jsstring) (document : team).

Record world : Type := mkWorld {
  domain : option jsstring;
  dryrun : value;
  db_name : jsstring;
  teams : list team;
  trace : list event
}.

Definition emit (e : event) (w : world) : world :=
  mkWorld (domain w) (dryrun w) (db_name w) (teams w) (trace w ++ [e]).

Definition M (A : Type) : Type := world -> result A * world.

Definition ret (A : Type) (a : A) : M A := fun w => (Ok a, w).

Definition bind (A B : Type) (m : M A) (k : A -> M B) : M B :=
  fun w =>
    match m w with
    | (Ok a, w') => k a w'
    | (Throw e, w') => (Throw e, w')
    end.

Definition throw (A : Type) (e : exn) : M A := fun w => (Throw e, w).
Arguments throw {A} e.

Definition lift (A : Type) (r : result A) : M A := fun w => (r, w).

Declare Scope js_scope.
Delimit Scope js_scope with js.
Notation "x <- m ;; k" := (bind m (fun x => k))
  (at level 100, m at next level, right associativity) : js_scope.
Notation "m ;; k" := (bind m (fun _ => k))
  (at level 100, right associativity) : js_scope.
Local Open Scope js_scope.

(** [print(line)]. *)
Definition print (line : jsstring) : M unit :=
  fun w => (Ok tt, emit (Print line) w).

(** [log(msg)]. *)
Definition log (msg : jsstring) : M unit :=
  print (utf16 "--(LOG)> " ++ msg).

(** [printjson(mongoUpdateCmd)]. *)
Definition printjson (query_id : jsstring) (document : team) : M unit :=
  fun w => (Ok tt, emit (PrintJson query_id document) w).

Definition get_domain : M (option jsstring) := fun w => (Ok (domain w), w).
Definition get_dryrun : M value := fun w => (Ok (dryrun w), w).

(** [dryrun = v]. *)
Definition set_dryrun (v : value) : M unit :=
  fun w => (Ok tt, mkWorld (domain w) v (db_name w) (teams w) (trace w)).

(** [db.getName()]. *)
Definition db_getName : M jsstring :=
  fun w => (Ok (db_name w), emit GetName w).

(** The [$group] stage [{_id: "$code", count: {$sum: 1}}]: one row per
    distinct [code], in the order of first occurrence, with the number of
    documents carrying it. The rows have no other field. *)
Fixpoint count_code (c : jsstring) (acc : list (jsstring * Z)) : list (jsstring * Z) :=
  match acc with
  | [] => [(c, 1%Z)]
  | (c', n) :: r =>
      if str_eqb c c' then (c', (n + 1)%Z) :: r else (c', n) :: count_code c r
  end.

Definition group_by_code (ts : list team) : list group :=
  map (fun cn => mkGroup (fst cn) (snd cn) VUndefined)
      (fold_left (fun acc t => count_code (code t) acc) ts []).

(** [db.teams.aggregate([...]).result]. *)
Definition db_teams_aggregate : M (list group) :=
  fun w => (Ok (group_by_code (teams w)), emit Aggregate w).

(** The documents matching [{defaultTeam: false, code: c}], in collection
    order. *)
Definition find_teams (c : jsstring) (ts : list team) : list team :=
  filter (fun t => negb (defaultTeam t) && str_eqb (code t) c) ts.

(** [db.teams.find({defaultTeam: false, code: c}).toArray()]. *)
Definition db_teams_find (c : jsstring) : M (list team) :=
  fun w => (Ok (find_teams c (teams w)), emit (Find c) w).

(** A replacement update without [multi]: the first document whose [_id]
    matches the query is replaced by [document]. *)
Fixpoint replace_first (id : jsstring) (document : team) (ts : list team) : list team :=
  match ts with
  | [] => []
  | t :: r =>
      if str_eqb (_id t) id then document :: r
      else t :: replace_first id document r
  end.

(** [db.teams.update({_id: id}, document)]. *)
Definition db_teams_update (id : jsstring) (document : team) : M unit :=
  fun w =>
    (Ok tt,
     emit (Update id document)
          (mkWorld (domain w) (dryrun w) (db_name w)
                   (replace_first id document (teams w)) (trace w))).

(** Reading a property through a value that may be [undefined]. *)
Definition deref (A : Type) (o : option A) : M A :=
  match o with
  | Some a => ret a
  | None => throw TypeError
  end.

(** ** The script *)

(** The two lines that report the user counts of a pair. *)
Definition users_line (t : team) : jsstring :=
  name t ++ utf16 " (" ++ _id t ++ utf16 ") has "
    ++ nat_to_str (List.length (users t)) ++ utf16 " users".

Definition has_users (t : team) : bool :=
  negb (Nat.eqb (List.length (users t)) 0).

(** [checkDups(dups)]. *)
Definition checkDups (dups : list team) : M bool :=
  let fa := nth_error dups 0 in
  let fb := nth_error dups 1 in
  lowestA <- lift (getLowestLevel fa) ;;
  lowestB <- lift (getLowestLevel fb) ;;
  fa <- deref fa ;;
  fb <- deref fb ;;
  if opt_str_eqb lowestA lowestB then
    if has_users fa && has_users fb then
      log (utf16 "Problem with team '" ++ name fa
             ++ utf16 "': Duplicates on the same level. Consult customer. ") ;;
      ret false
    else
      log (utf16 "Duplicate teams on same level, but one of them can be deleted because it has no users") ;;
      log (users_line fa) ;;
      log (users_line fb) ;;
      ret false
  else
    if has_users fa && has_users fb then
      log (utf16 "Duplicate teams '" ++ name fa
             ++ utf16 "' on different levels. Can be migrated") ;;
      ret true
    else
      log (utf16 "Duplicate teams on different levels, but one of them can be deleted because it has no users") ;;
      log (users_line fa) ;;
      log (users_line fb) ;;
      ret false.

(** The body of the second loop of [main], for one row of
    [relevantResults]; [continue] is the early [ret tt]. *)
Definition process_group (dom : jsstring) (row : group) : M unit :=
  if truthy (group_defaultTeam row) then ret tt
  else
    dups <- db_teams_find (group_id row) ;;
    eligible <- checkDups dups ;;
    (if eligible then
       teamToMigrate <- deref (nth_error dups 0) ;;
       log (utf16 "migrating " ++ name teamToMigrate ++ utf16 " ("
              ++ _id teamToMigrate ++ utf16 ")") ;;
       newCode <- lift (createTeamCode dom teamToMigrate) ;;
       let teamToMigrate := set_code teamToMigrate newCode in
       dr <- get_dryrun ;;
       if truthy dr then
         printjson (_id teamToMigrate) teamToMigrate ;;
         log (utf16 "dry run. no operations have been performed.")
       else
         db_teams_update (_id teamToMigrate) teamToMigrate ;;
         log (name teamToMigrate ++ utf16 " code has been changed to: "
                ++ code teamToMigrate)
     else ret tt) ;;
    log (utf16 "----- done").

(** [for (i = 0; i < relevantResults.length; i++) { ... }]. *)
Fixpoint for_each (dom : jsstring) (rows : list group) : M unit :=
  match rows with
  | [] => ret tt
  | row :: rest => process_group dom row ;; for_each dom rest
  end.

(** The rows the first loop stores: those with [count > 1]. *)
Definition relevant (result : list group) : list group :=
  filter (fun r => (1 <? count r)%Z) result.

(** [main()]. *)
Definition main : M unit :=
  d <- get_domain ;;
  match d with
  | None => throw (Error (utf16 "Domain must be defined"))
  | Some dom =>
      dr <- get_dryrun ;;
      (if is_undefined dr then set_dryrun (VBool true) else ret tt) ;;
      nm <- db_getName ;;
      if negb (str_eqb nm (utf16 "fh-aaa")) then
        throw (Error (utf16 "Script must be run on fh-aaa database"))
      else
        log (utf16 "using domain: " ++ dom) ;;
        result <- db_teams_aggregate ;;
        let relevantResults := relevant result in
        if Nat.leb (List.length relevantResults) 0 then
          log (utf16 "All good, nothing to do. Aborting script.")
        else
          for_each dom relevantResults
  end.

(** The shell as it is started: the two [--eval] globals, the database the
    shell is connected to and its [teams] collection. *)
Definition start (dom : option jsstring) (dr : value) (nm : jsstring)
                 (ts : list team) : world :=
  mkWorld dom dr nm ts [].

(** ** Vocabulary of the statements *)

(** The separator of [createTeamCode]. *)
Definition dash : jsstring := utf16 "-".

(** "Dash-joined": the elements in order with one separator between
    neighbours. *)
Fixpoint dash_joined (l : list jsstring) : jsstring :=
  match l with
  | [] => []
  | [x] => x
  | x :: r => x ++ dash ++ dash_joined r
  end.

(** [k] is a key of greatest string length among [keys]; among keys of
    that length it is the first in enumeration order. *)
Definition longest_key (keys : list jsstring) (k : jsstring) : Prop :=
  exists before after,
    keys = before ++ k :: after
    /\ (forall k', In k' before -> str_length k' < str_length k)
    /\ (forall k', In k' after -> str_length k' <= str_length k).

(** The order [sort] is asked for: [a] may stand before [b]. *)
Definition not_shorter (a b : jsstring) : Prop := str_length b <= str_length a.

(** The world [w] after the events [evs]. *)
Definition with_trace (evs : list event) (w : world) : world :=
  mkWorld (domain w) (dryrun w) (db_name w) (teams w) (trace w ++ evs).

Definition with_teams (ts : list team) (w : world) : world :=
  mkWorld (domain w) (dryrun w) (db_name w) ts (trace w).

(** The effect of an update (or of none) on the collection. *)
Definition apply_update (u : option (jsstring * team)) (w : world) : world :=
  match u with
  | None => w
  | Some (id, document) => with_teams (replace_first id document (teams w)) w
  end.

Definition is_update (e : event) : bool :=
  match e with Update _ _ => true | _ => false end.

Definition is_print (e : event) : bool :=
  match e with Print _ => true | _ => false end.

(** The events that are not log lines. *)
Definition non_log (evs : list event) : list event :=
  filter (fun e => negb (is_print e)) evs.

(** Calls that read documents of the collection. *)
Definition is_read (e : event) : bool :=
  match e with Aggregate | Find _ => true | _ => false end.

(** The classification of a pair, in the words of the decision table:
    different lowest levels, and users on both sides. *)
Definition lowest_of (t : team) : option jsstring :=
  hd_error (sort by_length_desc (Object_keys (business_objects t))).

Definition eligible (fa fb : team) : bool :=
  negb (opt_str_eqb (lowest_of fa) (lowest_of fb))
  && has_users fa && has_users fb.

(** The world when [main] enters its loops: [dryrun] defaulted, the name
    of the database read, the domain logged, the aggregation run. *)
Definition default_dryrun (w : world) : world :=
  if is_undefined (dryrun w)
  then mkWorld (domain w) (VBool true) (db_name w) (teams w) (trace w)
  else w.

Definition after_preamble (dom : jsstring) (w : world) : world :=
  with_trace [GetName;
              Print (utf16 "--(LOG)> " ++ utf16 "using domain: " ++ dom);
              Aggregate]
             (default_dryrun w).

(** [starts_with p s]: [p] is a prefix of [s]. *)
Fixpoint starts_with (p s : jsstring) : bool :=
  match p, s with
  | [], _ => true
  | x :: p', y :: s' => N.eqb x y && starts_with p' s'
  | _ :: _, [] => false
  end.

(** The reading of "produces a new identifier that is non-empty and
    distinct from the original" for the record [fa]. *)
Definition fresh_code_produced (dom : jsstring) (fa : team) : Prop :=
  exists c, createTeamCode dom fa = Ok c /\ c <> [] /\ c <> code fa.

(** The number of documents of a collection that carry the code [c]. *)
Definition occurrences (c : jsstring) (ts : list team) : nat :=
  List.length (filter (fun t => str_eqb (code t) c) ts).

(** The count recorded for [c] in an accumulator of the grouping, 0 when
    [c] has no entry. *)
Fixpoint count_of (c : jsstring) (acc : list (jsstring * Z)) : Z :=
  match acc with
  | [] => 0%Z
  | (c', n) :: r => if str_eqb c c' then n else count_of c r
  end.

(** [ts'] is [ts] with the [code] of some non-default documents
    replaced, and nothing else changed. *)
Definition code_only_changes (ts ts' : list team) : Prop :=
  Forall2 (fun t t' =>
             t' = t \/ (defaultTeam t = false /\ exists c, t' = set_code t c))
          ts ts'.

(** What can be said of every update the script issues or announces:
    the query is the document's own [_id], the document is not a default
    team, and its code is the one [createTeamCode] computes from the
    document itself under the domain [dom]. *)
Definition well_formed_write (dom : jsstring) (e : event) : Prop :=
  match e with
  | Update id document | PrintJson id document =>
      id = _id document
      /\ defaultTeam document = false
      /\ createTeamCode dom document = Ok (code document)
  | _ => True
  end.

(** A console line written through [log]. *)
Definition log_line (e : event) : Prop :=
  match e with
  | Print line => starts_with (utf16 "--(LOG)> ") line = true
  | _ => True
  end.

(** The computation [m] only adds events to the trace, and each of them
    satisfies [P]. *)
Definition only_emits (P : event -> Prop) (A : Type) (m : M A) : Prop :=
  forall w, exists evs, trace (snd (m w)) = trace w ++ evs /\ Forall P evs.

(** A would-be update stands for the update it announces. *)
Definition announced (e : event) : event :=
  match e with
  | Update id document => PrintJson id document
  | _ => e
  end.



(** ** Sample documents *)

Module Sample.
Definition acme : jsstring := utf16 "acme".
Definition fh_aaa : jsstring := utf16 "fh-aaa".

Definition test_team : team :=
  mkTeam (utf16 "id1") (utf16 "Test Team") (utf16 "X") false
         [(utf16 "org", [utf16 "o1"]);
          (utf16 "group", [utf16 "g1"; utf16 "g2"])]
         [utf16 "alice"].

(** Two teams on different levels, both with users, whose shared code
    already has the shape of a computed one. *)
Definition migrated_a : team :=
  mkTeam (utf16 "a1") (utf16 "T") (utf16 "acme-g1-T") false
         [(utf16 "group", [utf16 "g1"])] [utf16 "alice"].
Definition migrated_b : team :=
  mkTeam (utf16 "b1") (utf16 "T2") (utf16 "acme-g1-T") false
         [(utf16 "org", [utf16 "o1"])] [utf16 "bob"].

(** Three non-default teams sharing the code "X". *)
Definition x1 : team :=
  mkTeam (utf16 "id1") (utf16 "Sales") (utf16 "X") false
         [(utf16 "group", [utf16 "g1"])] [utf16 "alice"].
Definition x2 : team :=
  mkTeam (utf16 "id2") (utf16 "Sales") (utf16 "X") false
         [(utf16 "org", [utf16 "o1"])] [utf16 "bob"].
Definition x3 : team :=
  mkTeam (utf16 "id3") (utf16 "Sales") (utf16 "X") false
         [(utf16 "org", [utf16 "o1"])] [].

(** Two default teams sharing the code "D". *)
Definition d1 : team :=
  mkTeam (utf16 "id4") (utf16 "Everyone") (utf16 "D") true
         [(utf16 "org", [utf16 "o1"])] [utf16 "alice"].
Definition d2 : team :=
  mkTeam (utf16 "id5") (utf16 "Everyone") (utf16 "D") true
         [(utf16 "org", [utf16 "o2"])] [utf16 "bob"].

Definition row_X : group := mkGroup (utf16 "X") 3 VUndefined.

(** A team with users and an empty business-objects mapping, sharing the
    code "X". *)
Definition bare : team :=
  mkTeam (utf16 "id6") (utf16 "Bare") (utf16 "X") false [] [utf16 "carol"].

(** A default team without users that also carries the code "X". *)
Definition idle_default : team :=
  mkTeam (utf16 "id8") (utf16 "Everyone") (utf16 "X") true
         [(utf16 "org", [utf16 "o1"])] [].

(** A team with a code of its own. *)
Definition solo : team :=
  mkTeam (utf16 "id7") (utf16 "Solo") (utf16 "S") false
         [(utf16 "org", [utf16 "o1"])] [utf16 "dave"].
End Sample.

Unset Implicit Arguments.

(** ** Strings, [join], [replace] and [sort] *)

Lemma str_eqb_eq (a b : jsstring) : str_eqb a b = true <-> a = b.
Proof.
  revert b; induction a as [|x a IH]; intros [|y b]; simpl;
    try (split; [discriminate | discriminate]); try tauto.
  rewrite andb_true_iff, N.eqb_eq, IH.
  split; [intros [-> ->]; reflexivity | intros E; injection E; auto].
Qed.

Lemma str_eqb_refl (a : jsstring) : str_eqb a a = true.
Proof. apply str_eqb_eq; reflexivity. Qed.

Lemma str_eqb_neq (a b : jsstring) : str_eqb a b = false <-> a <> b.
Proof.
  rewrite <- str_eqb_eq. destruct (str_eqb a b); split; congruence.
Qed.

Lemma opt_str_eqb_eq (a b : option jsstring) : opt_str_eqb a b = true <-> a = b.
Proof.
  destruct a as [x|], b as [y|]; simpl; try (split; congruence).
  rewrite str_eqb_eq. split; congruence.
Qed.

Lemma join_from_dash (acc : jsstring) (l : list jsstring) :
  join_from dash acc l = dash_joined (acc :: l).
Proof.
  revert acc; induction l as [|x r IH]; intros acc; [reflexivity|].
  cbn [join_from]. rewrite IH.
  change (dash_joined (acc :: x :: r)) with (acc ++ dash ++ dash_joined (x :: r)).
  destruct r as [|y r]; [reflexivity|].
  change (dash_joined ((acc ++ dash ++ x) :: y :: r))
    with ((acc ++ dash ++ x) ++ dash ++ dash_joined (y :: r)).
  change (dash_joined (x :: y :: r)) with (x ++ dash ++ dash_joined (y :: r)).
  now rewrite <- !app_assoc.
Qed.

Lemma join_dash (l : list jsstring) : join dash l = dash_joined l.
Proof. destruct l as [|x r]; [reflexivity | apply join_from_dash]. Qed.

Lemma underscore_not_space : is_space underscore = false.
Proof. reflexivity. Qed.

Lemma replace_spaces_clean (s : jsstring) :
  Forall (fun c => is_space c = false) (replace_spaces s).
Proof.
  induction s as [|c s IH]; simpl; constructor; auto.
  destruct (is_space c) eqn:E; [apply underscore_not_space | exact E].
Qed.

Lemma replace_spaces_length (s : jsstring) :
  str_length (replace_spaces s) = str_length s.
Proof. apply length_map. Qed.

(** The head of the sorted keys is the first longest key. *)
Lemma sort_head_longest (keys : list jsstring) :
  keys <> [] ->
  exists k, hd_error (sort by_length_desc keys) = Some k /\ longest_key keys k.
Proof.
  induction keys as [|x r IH]; [congruence | intros _].
  destruct r as [|y r'].
  - exists x. split; [reflexivity|].
    exists [], []. repeat split; simpl; intros; tauto.
  - destruct IH as (k & Hk & before & after & Hsplit & Hb & Ha); [discriminate|].
    change (sort by_length_desc (x :: y :: r'))
      with (insert_sorted by_length_desc x (sort by_length_desc (y :: r'))).
    destruct (sort by_length_desc (y :: r')) as [|z s']; [discriminate|].
    simpl in Hk. injection Hk as Hz. subst z.
    cbn [insert_sorted]. unfold by_length_desc at 1.
    destruct (Z.leb_spec (Z.of_nat (str_length k) - Z.of_nat (str_length x)) 0) as [L|L].
    + exists x. split; [reflexivity|].
      exists [], (y :: r'). split; [reflexivity|]. split; [simpl; tauto|].
      intros k' Hin. rewrite Hsplit in Hin. apply in_app_or in Hin.
      destruct Hin as [Hin|[<-|Hin]].
      * apply Hb in Hin. lia.
      * lia.
      * apply Ha in Hin. lia.
    + exists k. split; [reflexivity|].
      exists (x :: before), after. rewrite Hsplit. split; [reflexivity|].
      split; [|exact Ha].
      intros k' [<-|Hin]; [lia | now apply Hb].
Qed.

(** The model of [sort] is a sort: it permutes its argument and orders it
    by decreasing length. *)
Lemma insert_sorted_perm (x : jsstring) (l : list jsstring) :
  Permutation (x :: l) (insert_sorted by_length_desc x l).
Proof.
  induction l as [|y r IH]; simpl; [apply Permutation_refl|].
  destruct (by_length_desc x y <=? 0)%Z; [apply Permutation_refl|].
  eapply perm_trans; [apply perm_swap|]. now apply perm_skip.
Qed.

Lemma sort_perm (l : list jsstring) : Permutation l (sort by_length_desc l).
Proof.
  induction l as [|x r IH]; simpl; [constructor|].
  eapply perm_trans; [apply perm_skip, IH | apply insert_sorted_perm].
Qed.

Lemma insert_sorted_sorted (x : jsstring) (l : list jsstring) :
  StronglySorted not_shorter l ->
  StronglySorted not_shorter (insert_sorted by_length_desc x l).
Proof.
  induction 1 as [|y r Hs IH Hall]; simpl; [repeat constructor|].
  unfold by_length_desc at 1.
  destruct (Z.leb_spec (Z.of_nat (str_length y) - Z.of_nat (str_length x)) 0) as [L|L].
  - constructor; [now constructor|]. constructor; [unfold not_shorter; lia|].
    eapply Forall_impl; [|exact Hall]. unfold not_shorter. intros; lia.
  - constructor; [exact IH|].
    eapply Permutation_Forall; [apply insert_sorted_perm|].
    constructor; [unfold not_shorter; lia | exact Hall].
Qed.

Lemma sort_sorted (l : list jsstring) :
  StronglySorted not_shorter (sort by_length_desc l).
Proof.
  induction l as [|x r IH]; simpl; [constructor | now apply insert_sorted_sorted].
Qed.

(** Whatever algorithm the engine sorts with, the head of the keys ordered
    by decreasing length is a key of greatest length. *)
Lemma any_sort_head_longest (keys sorted : list jsstring) (k : jsstring) :
  Permutation keys sorted ->
  StronglySorted not_shorter sorted ->
  hd_error sorted = Some k ->
  In k keys /\ forall k', In k' keys -> str_length k' <= str_length k.
Proof.
  intros Hperm Hsorted Hhd.
  destruct sorted as [|x r]; [discriminate|]. injection Hhd as ->.
  split.
  - eapply Permutation_in; [apply Permutation_sym, Hperm | now left].
  - intros k' Hin. apply (Permutation_in _ Hperm) in Hin.
    destruct Hin as [<-|Hin]; [lia|].
    apply StronglySorted_inv in Hsorted. destruct Hsorted as [_ Hall].
    rewrite Forall_forall in Hall. now apply Hall.
Qed.

Lemma longest_key_in (keys : list jsstring) (k : jsstring) :
  longest_key keys k -> In k keys.
Proof.
  intros (b & a & -> & _). apply in_or_app. right. now left.
Qed.

Lemma longest_key_max (keys : list jsstring) (k k' : jsstring) :
  longest_key keys k -> In k' keys -> str_length k' <= str_length k.
Proof.
  intros (b & a & -> & Hb & Ha) Hin. apply in_app_or in Hin.
  destruct Hin as [Hin|[<-|Hin]]; [apply Hb in Hin; lia | lia | now apply Ha].
Qed.

Lemma lookup_key_in (A : Type) (k : jsstring) (o : list (jsstring * A)) :
  In k (Object_keys o) -> exists v, lookup k o = Some v /\ In (k, v) o.
Proof.
  induction o as [|[k' v] r IH]; simpl; [tauto|]. intros Hin.
  destruct (str_eqb k k') eqn:E.
  - apply str_eqb_eq in E. subst k'. exists v. auto.
  - destruct Hin as [->|Hin]; [rewrite str_eqb_refl in E; discriminate|].
    destruct (IH Hin) as (v' & Hl & Hi). exists v'. auto.
Qed.

Lemma keys_nonempty (A : Type) (o : list (jsstring * A)) :
  o <> [] -> Object_keys o <> [].
Proof. destruct o; simpl; congruence. Qed.

(** ** [getLowestLevel] *)

(** C8. For a team whose business-objects mapping is not empty,
    [getLowestLevel] returns a key of the mapping, no key of the mapping is
    longer than it, and every key enumerated before it is strictly
    shorter: it is the key of greatest string length (the first of them
    when several share that length). *)
Theorem getLowestLevel_longest_key (t : team) :
  business_objects t <> [] ->
  exists k,
    getLowestLevel (Some t) = Ok (Some k)
    /\ In k (Object_keys (business_objects t))
    /\ (forall k', In k' (Object_keys (business_objects t)) ->
                   str_length k' <= str_length k)
    /\ longest_key (Object_keys (business_objects t)) k.
Proof.
  intros Hne.
  destruct (sort_head_longest _ (keys_nonempty _ _ Hne)) as (k & Hk & Hl).
  exists k. unfold getLowestLevel. cbv zeta. rewrite Hk.
  split; [reflexivity|]. split; [now apply longest_key_in|].
  split; [|exact Hl]. intros k'. now apply longest_key_max.
Qed.

Lemma getLowestLevel_longest_key_witness :
  business_objects Sample.test_team <> []
  /\ exists k,
       getLowestLevel (Some Sample.test_team) = Ok (Some k)
       /\ In k (Object_keys (business_objects Sample.test_team))
       /\ (forall k', In k' (Object_keys (business_objects Sample.test_team)) ->
                      str_length k' <= str_length k)
       /\ longest_key (Object_keys (business_objects Sample.test_team)) k.
Proof.
  split; [discriminate|].
  apply (getLowestLevel_longest_key Sample.test_team). discriminate.
Defined.

Example getLowestLevel_sample :
  getLowestLevel (Some Sample.test_team) = Ok (Some (utf16 "group")).
Proof. reflexivity. Qed.

(** An object without keys has no lowest level: the result is
    [undefined]. *)
Lemma getLowestLevel_no_keys (t : team) :
  business_objects t = [] -> getLowestLevel (Some t) = Ok None.
Proof. intros E. unfold getLowestLevel. now rewrite E. Qed.

Lemma getLowestLevel_some (t : team) :
  getLowestLevel (Some t) = Ok (lowest_of t).
Proof. reflexivity. Qed.

(** ** [createTeamCode] *)

Lemma createTeamCode_no_keys (dom : jsstring) (t : team) :
  business_objects t = [] -> createTeamCode dom t = Throw TypeError.
Proof. intros E. unfold createTeamCode, getLowestLevel. now rewrite E. Qed.

(** The value of [createTeamCode] on a non-empty mapping. *)
Lemma createTeamCode_value (dom : jsstring) (t : team) :
  business_objects t <> [] ->
  exists lv bos,
    lowest_of t = Some lv
    /\ longest_key (Object_keys (business_objects t)) lv
    /\ lookup lv (business_objects t) = Some bos
    /\ In (lv, bos) (business_objects t)
    /\ createTeamCode dom t
       = Ok (replace_spaces (dom ++ dash ++ dash_joined bos ++ dash ++ name t)).
Proof.
  intros Hne.
  destruct (sort_head_longest _ (keys_nonempty _ _ Hne)) as (lv & Hlv & Hlong).
  destruct (lookup_key_in _ lv (business_objects t) (longest_key_in _ _ Hlong))
    as (bos & Hlk & Hpair).
  exists lv, bos. repeat (split; [assumption|]).
  unfold createTeamCode. rewrite getLowestLevel_some. unfold lowest_of.
  rewrite Hlv. cbn [to_property_key]. rewrite Hlk.
  cbv zeta. fold dash. rewrite !join_dash. reflexivity.
Qed.

(** C2. For a team with a non-empty business-objects mapping and any
    domain, [createTeamCode] returns the domain, the dash-joined
    identifiers stored under the team's lowest level and the team's name,
    joined by "-", with every whitespace code unit replaced by "_"; the
    result contains no whitespace. It is a function of the domain and the
    team alone. For the domain "acme", the name "Test Team" and the
    lowest-level identifiers ["g1","g2"] the result is
    "acme-g1-g2-Test_Team". *)
Theorem createTeamCode_spec (dom : jsstring) (t : team) :
  business_objects t <> [] ->
  exists lv bos,
    getLowestLevel (Some t) = Ok (Some lv)
    /\ longest_key (Object_keys (business_objects t)) lv
    /\ lookup lv (business_objects t) = Some bos
    /\ In (lv, bos) (business_objects t)
    /\ createTeamCode dom t
       = Ok (replace_spaces (dom ++ dash ++ dash_joined bos ++ dash ++ name t))
    /\ (forall c, createTeamCode dom t = Ok c ->
                  Forall (fun ch => is_space ch = false) c)
    /\ (dom = utf16 "acme" -> name t = utf16 "Test Team" ->
        bos = [utf16 "g1"; utf16 "g2"] ->
        createTeamCode dom t = Ok (utf16 "acme-g1-g2-Test_Team")).
Proof.
  intros Hne.
  destruct (createTeamCode_value dom t Hne)
    as (lv & bos & Hlv & Hlong & Hlk & Hpair & Hcode).
  exists lv, bos.
  split; [rewrite getLowestLevel_some; now f_equal|].
  repeat (split; [assumption|]). split.
  - intros c Hc. rewrite Hcode in Hc. injection Hc as <-.
    apply replace_spaces_clean.
  - intros -> Hn ->. rewrite Hcode, Hn. reflexivity.
Qed.

Lemma createTeamCode_spec_witness :
  business_objects Sample.test_team <> []
  /\ createTeamCode Sample.acme Sample.test_team
     = Ok (utf16 "acme-g1-g2-Test_Team").
Proof.
  assert (Hne : business_objects Sample.test_team <> []) by discriminate.
  split; [exact Hne|].
  destruct (createTeamCode_spec Sample.acme Sample.test_team Hne)
    as (lv & bos & Hlv & _ & Hlk & _ & _ & _ & Hex).
  injection Hlv as <-. injection Hlk as <-.
  apply Hex; reflexivity.
Defined.

(** Whenever [createTeamCode] returns, the mapping was not empty. *)
Lemma createTeamCode_ok_keys (dom : jsstring) (t : team) (c : jsstring) :
  createTeamCode dom t = Ok c -> business_objects t <> [].
Proof.
  intros H E. rewrite (createTeamCode_no_keys dom t E) in H. discriminate.
Qed.

(** The new code always carries the two separators. *)
Lemma createTeamCode_nonempty (dom : jsstring) (t : team) (c : jsstring) :
  createTeamCode dom t = Ok c -> c <> [] /\ 2 <= str_length c.
Proof.
  intros H.
  destruct (createTeamCode_value dom t (createTeamCode_ok_keys dom t c H))
    as (lv & bos & _ & _ & _ & _ & Hc).
  rewrite Hc in H.
  assert (L : 2 <= str_length c).
  { injection H as <-. rewrite replace_spaces_length. unfold str_length.
    repeat (rewrite length_app; simpl). lia. }
  split; [|exact L]. intros ->. simpl in L. lia.
Qed.

(** ** Worlds and traces *)

Lemma with_trace_nil (w : world) : with_trace [] w = w.
Proof. destruct w; unfold with_trace; simpl. now rewrite app_nil_r. Qed.

Lemma with_trace_app (a b : list event) (w : world) :
  with_trace b (with_trace a w) = with_trace (a ++ b) w.
Proof. unfold with_trace; simpl. now rewrite app_assoc. Qed.

Lemma emit_with_trace (e : event) (w : world) : emit e w = with_trace [e] w.
Proof. reflexivity. Qed.

Lemma emit_after (e : event) (evs : list event) (w : world) :
  emit e (with_trace evs w) = with_trace (evs ++ [e]) w.
Proof. rewrite emit_with_trace. apply with_trace_app. Qed.

Lemma has_users_true (t : team) : has_users t = true <-> users t <> [].
Proof. unfold has_users. destruct (users t); simpl; split; congruence. Qed.

Lemma has_users_false (t : team) : has_users t = false <-> users t = [].
Proof. unfold has_users. destruct (users t); simpl; split; congruence. Qed.

Lemma eligible_true (fa fb : team) :
  eligible fa fb = true
  <-> getLowestLevel (Some fa) <> getLowestLevel (Some fb)
      /\ users fa <> [] /\ users fb <> [].
Proof.
  unfold eligible. rewrite !getLowestLevel_some, !andb_true_iff, !has_users_true.
  rewrite negb_true_iff.
  destruct (opt_str_eqb (lowest_of fa) (lowest_of fb)) eqn:E.
  - apply opt_str_eqb_eq in E. rewrite E. split; [intros [[? _] _]; discriminate|].
    intros (H & _); congruence.
  - split; [|tauto]. intros [[_ Ha] Hb]. repeat split; auto.
    intros H. injection H as H. apply opt_str_eqb_eq in H. congruence.
Qed.

(** ** [checkDups] *)

Ltac run_script :=
  cbv [checkDups process_group bind lift deref ret throw log print printjson
       get_dryrun db_teams_find db_teams_update nth_error];
  rewrite ?getLowestLevel_some; cbv beta iota.

Lemma checkDups_pair (fa fb : team) :
  exists evs,
    forallb is_print evs = true
    /\ forall rest w,
         checkDups (fa :: fb :: rest) w = (Ok (eligible fa fb), with_trace evs w).
Proof.
  unfold eligible.
  destruct (opt_str_eqb (lowest_of fa) (lowest_of fb)) eqn:E1,
           (has_users fa) eqn:E2, (has_users fb) eqn:E3;
    eexists; (split; [|intros rest w; run_script; rewrite E1, E2, E3; cbv beta iota;
                       cbn [andb negb]; rewrite ?emit_with_trace, ?with_trace_app;
                       reflexivity]); reflexivity.
Qed.

(** ** One iteration of the loop of [main] *)

Lemma process_group_skip (dom : jsstring) (row : group) (w : world) :
  truthy (group_defaultTeam row) = true ->
  process_group dom row w = (Ok tt, w).
Proof. intros H. unfold process_group. now rewrite H. Qed.

Lemma process_group_short (dom : jsstring) (row : group) (w : world) :
  truthy (group_defaultTeam row) = false ->
  List.length (find_teams (group_id row) (teams w)) < 2 ->
  process_group dom row w
  = (Throw TypeError, with_trace [Find (group_id row)] w).
Proof.
  intros H L. unfold process_group. rewrite H.
  unfold bind at 1. unfold db_teams_find.
  destruct (find_teams (group_id row) (teams w)) as [|a [|b r]];
    [reflexivity | reflexivity | simpl in L; lia].
Qed.

Lemma filter_app_nil (f : event -> bool) (a b : list event) :
  filter f a = [] -> filter f (a ++ b) = filter f b.
Proof. intros H. now rewrite filter_app, H. Qed.

Lemma prints_not_actions (evs : list event) :
  forallb is_print evs = true -> non_log evs = [].
Proof.
  induction evs as [|e evs IH]; [reflexivity|]. simpl.
  intros H. apply andb_true_iff in H. destruct H as [He Hr].
  unfold non_log in *. simpl. rewrite He. simpl. auto.
Qed.

Lemma forallb_print_app (a b : list event) :
  forallb is_print a = true -> forallb is_print b = true ->
  forallb is_print (a ++ b) = true.
Proof. intros Ha Hb. now rewrite forallb_app, Ha, Hb. Qed.

Ltac pair_step Hc Ec :=
  let row := fresh "row" in
  let rest := fresh "rest" in
  let w := fresh "w" in
  let Hflag := fresh "Hflag" in
  let Hdry := fresh "Hdry" in
  let Hfind := fresh "Hfind" in
  intros row rest w Hflag Hdry Hfind; unfold process_group; rewrite Hflag;
  unfold bind at 1; unfold db_teams_find; rewrite Hfind;
  unfold bind at 1; rewrite Hc; run_script; rewrite ?Ec;
  cbn [dryrun teams with_trace emit]; rewrite ?Hdry; cbv beta iota;
  cbn [_id set_code name code];
  unfold with_trace, emit, apply_update, with_teams;
  cbn [dryrun teams domain db_name trace];
  rewrite <- ?app_assoc; cbn [app]; reflexivity.

(** The iteration on a group whose fetched array starts with [fa], [fb]:
    the outcome [r], the events [evs] after the [find] and the update [u]
    depend on the domain, on these two documents and on the truth value of
    [dryrun] only. *)
Lemma process_group_pair (dom : jsstring) (fa fb : team) (dry : bool) :
  exists r evs u,
    (forall row rest w,
        truthy (group_defaultTeam row) = false ->
        truthy (dryrun w) = dry ->
        find_teams (group_id row) (teams w) = fa :: fb :: rest ->
        process_group dom row w
        = (r, with_trace (Find (group_id row) :: evs) (apply_update u w)))
    /\ (eligible fa fb = false ->
        r = Ok tt /\ u = None /\ forallb is_print evs = true)
    /\ (forall e, eligible fa fb = true -> createTeamCode dom fa = Throw e ->
        r = Throw e /\ u = None /\ forallb is_print evs = true)
    /\ (forall c, eligible fa fb = true -> createTeamCode dom fa = Ok c ->
        r = Ok tt
        /\ non_log evs
           = [if dry then PrintJson (_id fa) (set_code fa c)
              else Update (_id fa) (set_code fa c)]
        /\ u = if dry then None else Some (_id fa, set_code fa c)).
Proof.
  destruct (checkDups_pair fa fb) as (evs & Hp & Hc).
  assert (Hn := prints_not_actions evs Hp).
  destruct (eligible fa fb) eqn:E;
    [destruct (createTeamCode dom fa) as [c|e] eqn:Ec; [destruct dry|]|].
  - (* eligible, code computed, dry run *)
    exists (Ok tt). eexists. exists None.
    split; [pair_step Hc Ec|].
    split; [discriminate|]. split; [discriminate|].
    intros c' _ Hc'. injection Hc' as <-. split; [reflexivity|].
    split; [|reflexivity].
    unfold non_log. rewrite (filter_app_nil _ _ _ Hn). reflexivity.
  - (* eligible, code computed, update *)
    exists (Ok tt). eexists. exists (Some (_id fa, set_code fa c)).
    split; [pair_step Hc Ec|].
    split; [discriminate|]. split; [discriminate|].
    intros c' _ Hc'. injection Hc' as <-. split; [reflexivity|].
    split; [|reflexivity].
    unfold non_log. rewrite (filter_app_nil _ _ _ Hn). reflexivity.
  - (* eligible, [createTeamCode] throws *)
    exists (Throw e). eexists. exists None.
    split; [pair_step Hc Ec|].
    split; [discriminate|]. split; [|discriminate].
    intros e' _ He'. injection He' as <-.
    repeat split. now apply forallb_print_app.
  - (* not eligible *)
    exists (Ok tt). eexists. exists None.
    split; [pair_step Hc E|].
    split; [|split; discriminate].
    intros _. repeat split. now apply forallb_print_app.
Qed.

Lemma updates_of_prints (evs : list event) :
  forallb is_print evs = true -> filter is_update evs = [].
Proof.
  induction evs as [|e evs IH]; [reflexivity|]. simpl.
  intros H. apply andb_true_iff in H. destruct H as [He Hr].
  destruct e; try discriminate. simpl. auto.
Qed.

Lemma updates_of_non_log (evs : list event) :
  filter is_update evs = filter is_update (non_log evs).
Proof.
  unfold non_log. induction evs as [|e evs IH]; [reflexivity|].
  destruct e; simpl; rewrite ?IH; reflexivity.
Qed.

Lemma eligible_false (fa fb : team) :
  eligible fa fb = false
  <-> getLowestLevel (Some fa) = getLowestLevel (Some fb)
      \/ users fa = [] \/ users fb = [].
Proof.
  rewrite <- !has_users_false, !getLowestLevel_some. unfold eligible.
  destruct (opt_str_eqb (lowest_of fa) (lowest_of fb)) eqn:E.
  - apply opt_str_eqb_eq in E. rewrite E. simpl. tauto.
  - assert (lowest_of fa <> lowest_of fb).
    { intros H. apply opt_str_eqb_eq in H. congruence. }
    destruct (has_users fa), (has_users fb); simpl; split; try tauto;
      try discriminate; intros [H'|[H'|H']]; congruence.
Qed.

(** C1. On a pair (the first two documents of the fetched array),
    [checkDups] returns normally after printing log lines only; it returns
    [true] if and only if the two lowest levels differ and both documents
    have at least one user. When it returns [false], the iteration of
    [main] on that group ends normally having done nothing but the [find]
    and log lines: no update, no would-be update, the collection is the
    same. *)
Theorem checkDups_decision_table (fa fb : team) (rest : list team) (w : world) :
  exists b evs,
    checkDups (fa :: fb :: rest) w = (Ok b, with_trace evs w)
    /\ forallb is_print evs = true
    /\ (b = true <->
        getLowestLevel (Some fa) <> getLowestLevel (Some fb)
        /\ users fa <> [] /\ users fb <> [])
    /\ (b = false <->
        getLowestLevel (Some fa) = getLowestLevel (Some fb)
        \/ users fa = [] \/ users fb = [])
    /\ (b = false ->
        forall dom row,
          truthy (group_defaultTeam row) = false ->
          find_teams (group_id row) (teams w) = fa :: fb :: rest ->
          exists evs',
            process_group dom row w = (Ok tt, with_trace evs' w)
            /\ non_log evs' = [Find (group_id row)]).
Proof.
  destruct (checkDups_pair fa fb) as (evs & Hp & Hc).
  exists (eligible fa fb), evs. split; [apply Hc|]. split; [exact Hp|].
  split; [apply eligible_true|]. split; [apply eligible_false|].
  intros Hel dom row Hflag Hfind.
  destruct (process_group_pair dom fa fb (truthy (dryrun w)))
    as (r & evs' & u & Hrun & Hno & _).
  destruct (Hno Hel) as (-> & -> & Hp').
  exists (Find (group_id row) :: evs'). split.
  - now apply (Hrun row rest w).
  - unfold non_log. simpl. f_equal. now apply prints_not_actions.
Qed.

(** C4 as stated does not hold: a group can hold a record without users
    and still be rewritten, because only the first two fetched records
    are looked at. Three teams share the code "X": the first two are on
    different levels and have users, the third has none (in the second
    collection the userless one is a default team, which the [find] does
    not even return). In both runs the update of the first team is issued
    and its code changes. *)
Lemma userless_record_does_not_stop_migration :
  let w := start (Some Sample.acme) (VBool false) Sample.fh_aaa
                 [Sample.x1; Sample.x2; Sample.x3] in
  let w' := start (Some Sample.acme) (VBool false) Sample.fh_aaa
                  [Sample.x1; Sample.x2; Sample.idle_default] in
  (occurrences (utf16 "X") (teams w) = 3
   /\ In Sample.x3 (teams w) /\ code Sample.x3 = utf16 "X"
   /\ users Sample.x3 = []
   /\ filter is_update (trace (snd (main w)))
      = [Update (utf16 "id1") (set_code Sample.x1 (utf16 "acme-g1-Sales"))]
   /\ map code (teams (snd (main w)))
      = [utf16 "acme-g1-Sales"; utf16 "X"; utf16 "X"])
  /\ (occurrences (utf16 "X") (teams w') = 3
      /\ In Sample.idle_default (teams w')
      /\ code Sample.idle_default = utf16 "X"
      /\ users Sample.idle_default = []
      /\ filter is_update (trace (snd (main w')))
         = [Update (utf16 "id1") (set_code Sample.x1 (utf16 "acme-g1-Sales"))]
      /\ map code (teams (snd (main w')))
         = [utf16 "acme-g1-Sales"; utf16 "X"; utf16 "X"]).
Proof.
  split; (split; [reflexivity|]); (split; [simpl; tauto|]);
    repeat split; reflexivity.
Qed.

(** C4, amended. When the first two documents the [find] returns for a
    group are on the same lowest level (whatever their users), or one of
    these two has no user, the iteration on that group ends normally,
    issues no update and prints no would-be update, and leaves every
    document of the collection as it was. *)
Theorem no_rewrite_unless_eligible
        (dom : jsstring) (row : group) (w : world) (fa fb : team) (rest : list team) :
  find_teams (group_id row) (teams w) = fa :: fb :: rest ->
  getLowestLevel (Some fa) = getLowestLevel (Some fb)
  \/ users fa = [] \/ users fb = [] ->
  exists evs,
    process_group dom row w = (Ok tt, with_trace evs w)
    /\ teams (with_trace evs w) = teams w
    /\ filter is_update evs = []
    /\ (forall e, In e (non_log evs) -> e = Find (group_id row)).
Proof.
  intros Hfind Hcase. apply eligible_false in Hcase.
  destruct (truthy (group_defaultTeam row)) eqn:Hflag.
  - exists []. rewrite with_trace_nil. split; [now apply process_group_skip|].
    repeat split. intros e [].
  - destruct (process_group_pair dom fa fb (truthy (dryrun w)))
      as (r & evs' & u & Hrun & Hno & _).
    destruct (Hno Hcase) as (-> & -> & Hp').
    exists (Find (group_id row) :: evs'). split; [now apply (Hrun row rest w)|].
    split; [reflexivity|]. split.
    + simpl. now apply updates_of_prints.
    + unfold non_log. simpl. fold (non_log evs').
      rewrite (prints_not_actions _ Hp'). intros e [<-|[]]. reflexivity.
Qed.

Lemma no_rewrite_unless_eligible_witness :
  let w := start (Some Sample.acme) (VBool false) Sample.fh_aaa
                 [Sample.x2; Sample.x3] in
  exists evs,
    process_group Sample.acme Sample.row_X w = (Ok tt, with_trace evs w)
    /\ teams (with_trace evs w) = teams w
    /\ filter is_update evs = []
    /\ (forall e, In e (non_log evs) -> e = Find (group_id Sample.row_X)).
Proof.
  apply (no_rewrite_unless_eligible Sample.acme Sample.row_X _
           Sample.x2 Sample.x3 []).
  - reflexivity.
  - left. reflexivity.
Defined.

(** ** The rewrite step *)

Lemma starts_with_app (p s : jsstring) : starts_with p (p ++ s) = true.
Proof.
  induction p as [|x p IH]; [reflexivity|]. simpl.
  now rewrite N.eqb_refl, IH.
Qed.

Lemma createTeamCode_prefix (dom : jsstring) (t : team) (c : jsstring) :
  createTeamCode dom t = Ok c ->
  starts_with (replace_spaces (dom ++ dash)) c = true.
Proof.
  intros H.
  destruct (createTeamCode_value dom t (createTeamCode_ok_keys dom t c H))
    as (lv & bos & _ & _ & _ & _ & Hc).
  assert (E : c = replace_spaces (dom ++ dash ++ dash_joined bos ++ dash ++ name t))
    by congruence.
  subst c.
  replace (dom ++ dash ++ dash_joined bos ++ dash ++ name t)
    with ((dom ++ dash) ++ dash_joined bos ++ dash ++ name t)
    by now rewrite <- app_assoc.
  unfold replace_spaces. rewrite (map_app _ (dom ++ dash)). apply starts_with_app.
Qed.

(** C3 as stated does not hold: two teams on different levels, both
    with users, share the code "acme-g1-T"; the code computed for the
    first one is "acme-g1-T" again, so no identifier distinct from the
    original is produced, and the update that [main] issues leaves the
    collection as it was. *)
Lemma new_code_can_equal_original :
  find_teams (utf16 "acme-g1-T") [Sample.migrated_a; Sample.migrated_b]
  = [Sample.migrated_a; Sample.migrated_b]
  /\ getLowestLevel (Some Sample.migrated_a)
     <> getLowestLevel (Some Sample.migrated_b)
  /\ users Sample.migrated_a <> [] /\ users Sample.migrated_b <> []
  /\ createTeamCode Sample.acme Sample.migrated_a
     = Ok (code Sample.migrated_a)
  /\ ~ fresh_code_produced Sample.acme Sample.migrated_a
  /\ teams (snd (main (start (Some Sample.acme) (VBool false) Sample.fh_aaa
                             [Sample.migrated_a; Sample.migrated_b])))
     = [Sample.migrated_a; Sample.migrated_b].
Proof.
  split; [reflexivity|]. split; [discriminate|].
  split; [discriminate|]. split; [discriminate|].
  split; [reflexivity|]. split; [|reflexivity].
  intros (c & Hc & _ & Hneq). apply Hneq.
  assert (E : createTeamCode Sample.acme Sample.migrated_a
              = Ok (code Sample.migrated_a)) by reflexivity.
  rewrite E in Hc. now injection Hc.
Qed.

(** C3, amended. For a group whose first two documents are on different
    lowest levels and both have users, and whose first document has a
    non-empty business-objects mapping, the iteration selects the first
    document and nothing else: [createTeamCode] yields a non-empty new
    code for it, the iteration ends normally, and its only action besides
    the [find] and log lines is, when [dryrun] is falsy, one update of that
    document's [_id] with that document carrying the new code (the
    collection changes by that replacement only) and, when [dryrun] is
    truthy, one printed would-be update of the same shape (the collection
    does not change). The new code differs from the original one whenever
    the original does not begin with the whitespace-collapsed domain
    followed by "-". *)
Theorem eligible_pair_first_record_migrated
        (dom : jsstring) (row : group) (w : world) (fa fb : team) (rest : list team) :
  truthy (group_defaultTeam row) = false ->
  find_teams (group_id row) (teams w) = fa :: fb :: rest ->
  getLowestLevel (Some fa) <> getLowestLevel (Some fb) ->
  users fa <> [] -> users fb <> [] ->
  business_objects fa <> [] ->
  exists newCode evs,
    createTeamCode dom fa = Ok newCode
    /\ newCode <> []
    /\ (starts_with (replace_spaces (dom ++ dash)) (code fa) = false ->
        newCode <> code fa)
    /\ process_group dom row w
       = (Ok tt,
          with_trace (Find (group_id row) :: evs)
            (apply_update
               (if truthy (dryrun w) then None
                else Some (_id fa, set_code fa newCode)) w))
    /\ non_log evs
       = [if truthy (dryrun w) then PrintJson (_id fa) (set_code fa newCode)
          else Update (_id fa) (set_code fa newCode)].
Proof.
  intros Hflag Hfind Hlv Hua Hub Hbo.
  assert (Hel : eligible fa fb = true) by (apply eligible_true; auto).
  destruct (createTeamCode_value dom fa Hbo)
    as (lv & bos & _ & _ & _ & _ & Hc).
  set (newCode := replace_spaces (dom ++ dash ++ dash_joined bos ++ dash ++ name fa)) in *.
  destruct (process_group_pair dom fa fb (truthy (dryrun w)))
    as (r & evs & u & Hrun & _ & _ & Hok).
  destruct (Hok newCode Hel Hc) as (-> & Hact & ->).
  exists newCode, evs. split; [exact Hc|].
  split; [apply (createTeamCode_nonempty dom fa newCode Hc)|].
  split.
  - intros Hpre E. rewrite <- E in Hpre.
    rewrite (createTeamCode_prefix dom fa newCode Hc) in Hpre. discriminate.
  - split; [now apply (Hrun row rest w) | exact Hact].
Qed.

Lemma eligible_pair_first_record_migrated_witness :
  let w := start (Some Sample.acme) (VBool false) Sample.fh_aaa
                 [Sample.x1; Sample.x2; Sample.x3] in
  exists newCode evs,
    createTeamCode Sample.acme Sample.x1 = Ok newCode
    /\ newCode <> []
    /\ (starts_with (replace_spaces (Sample.acme ++ dash)) (code Sample.x1) = false ->
        newCode <> code Sample.x1)
    /\ process_group Sample.acme Sample.row_X w
       = (Ok tt,
          with_trace (Find (group_id Sample.row_X) :: evs)
            (apply_update
               (if truthy (dryrun w) then None
                else Some (_id Sample.x1, set_code Sample.x1 newCode)) w))
    /\ non_log evs
       = [if truthy (dryrun w)
          then PrintJson (_id Sample.x1) (set_code Sample.x1 newCode)
          else Update (_id Sample.x1) (set_code Sample.x1 newCode)].
Proof.
  apply (eligible_pair_first_record_migrated Sample.acme Sample.row_X _
           Sample.x1 Sample.x2 [Sample.x3]);
    solve [reflexivity | discriminate].
Defined.

(** With unique [_id]s, replacing by [_id] touches the selected document
    only, and changes nothing but its code. *)
Lemma replace_first_unique (ts : list team) (fa : team) (c : jsstring) :
  NoDup (map _id ts) -> In fa ts ->
  replace_first (_id fa) (set_code fa c) ts
  = map (fun t => if str_eqb (_id t) (_id fa) then set_code t c else t) ts.
Proof.
  induction ts as [|t ts IH]; [intros _ []|].
  simpl. intros Hnd Hin. inversion Hnd as [|? ? Hnot Hnd']; subst.
  destruct (str_eqb (_id t) (_id fa)) eqn:E.
  - apply str_eqb_eq in E.
    assert (t = fa).
    { destruct Hin as [->|Hin]; [reflexivity|].
      exfalso. apply Hnot. rewrite E. now apply in_map. }
    subst t. f_equal.
    clear IH Hin Hnd E. induction ts as [|t' ts IH']; [reflexivity|].
    simpl in *. inversion Hnd' as [|? ? Hn' Hnd'']; subst.
    destruct (str_eqb (_id t') (_id fa)) eqn:E'.
    + apply str_eqb_eq in E'. exfalso. apply Hnot. now left.
    + f_equal. apply IH'; [tauto | assumption].
  - f_equal. destruct Hin as [->|Hin]; [rewrite str_eqb_refl in E; discriminate|].
    now apply IH.
Qed.

(** ** Groups of more than two documents *)

(** C9 as stated does not hold: on a collection of three non-default
    teams sharing the code "X", the run (with [dryrun] false) does not set
    the group aside: it classifies the first two, migrates the first and
    issues the update. *)
Lemma group_of_three_is_migrated :
  let w := start (Some Sample.acme) (VBool false) Sample.fh_aaa
                 [Sample.x1; Sample.x2; Sample.x3] in
  group_by_code (teams w) = [Sample.row_X]
  /\ List.length (find_teams (utf16 "X") (teams w)) = 3
  /\ fst (checkDups (find_teams (utf16 "X") (teams w)) w) = Ok true
  /\ fst (main w) = Ok tt
  /\ filter is_update (trace (snd (main w)))
     = [Update (utf16 "id1") (set_code Sample.x1 (utf16 "acme-g1-Sales"))]
  /\ teams (snd (main w))
     = [set_code Sample.x1 (utf16 "acme-g1-Sales"); Sample.x2; Sample.x3].
Proof. repeat split; reflexivity. Qed.

(** C9, amended. A group with more than two documents is not set aside:
    it is handled exactly as the pair of its first two documents would be.
    [checkDups] returns the verdict of that pair with the same log lines,
    and the iteration of [main] has the same outcome, the same output and
    the same update (or none), so nothing reports the cardinality and the
    documents after the second are never looked at. What the iteration
    does is decided by the first two documents alone: on the same level,
    or with a userless one among them, it does nothing but the [find] and
    log lines; on different levels, both with users, and with business
    objects on the first, it ends normally with one action on the first
    document, the update when [dryrun] is falsy and the printed would-be
    update when [dryrun] is truthy; on different levels, both with users,
    and without business objects on the first, it ends with a TypeError
    and no action. *)
Theorem larger_group_handled_as_first_pair
        (dom : jsstring) (row : group) (fa fb : team) (rest : list team)
        (w1 w2 : world) :
  rest <> [] ->
  truthy (group_defaultTeam row) = false ->
  truthy (dryrun w1) = truthy (dryrun w2) ->
  find_teams (group_id row) (teams w1) = fa :: fb :: rest ->
  find_teams (group_id row) (teams w2) = [fa; fb] ->
  exists r evs u lines,
    forallb is_print lines = true
    /\ checkDups (fa :: fb :: rest) w1 = (Ok (eligible fa fb), with_trace lines w1)
    /\ checkDups [fa; fb] w2 = (Ok (eligible fa fb), with_trace lines w2)
    /\ process_group dom row w1 = (r, with_trace evs (apply_update u w1))
    /\ process_group dom row w2 = (r, with_trace evs (apply_update u w2))
    /\ (getLowestLevel (Some fa) = getLowestLevel (Some fb)
        \/ users fa = [] \/ users fb = [] ->
        r = Ok tt /\ u = None /\ non_log evs = [Find (group_id row)])
    /\ (getLowestLevel (Some fa) <> getLowestLevel (Some fb) ->
        users fa <> [] -> users fb <> [] ->
        business_objects fa <> [] ->
        exists c,
          createTeamCode dom fa = Ok c
          /\ r = Ok tt
          /\ non_log evs
             = [Find (group_id row);
                if truthy (dryrun w1)
                then PrintJson (_id fa) (set_code fa c)
                else Update (_id fa) (set_code fa c)]
          /\ u = if truthy (dryrun w1) then None
                 else Some (_id fa, set_code fa c))
    /\ (getLowestLevel (Some fa) <> getLowestLevel (Some fb) ->
        users fa <> [] -> users fb <> [] ->
        business_objects fa = [] ->
        r = Throw TypeError /\ u = None
        /\ non_log evs = [Find (group_id row)]).
Proof.
  intros _ Hflag Hdry H1 H2.
  destruct (checkDups_pair fa fb) as (lines & Hp & Hc).
  destruct (process_group_pair dom fa fb (truthy (dryrun w1)))
    as (r & evs & u & Hrun & Hno & Hthrow & Hok).
  exists r, (Find (group_id row) :: evs), u, lines.
  split; [exact Hp|]. split; [apply Hc|]. split; [apply Hc|].
  split; [now apply (Hrun row rest w1)|].
  split; [now apply (Hrun row [] w2)|].
  assert (Hlog : forall l, forallb is_print l = true ->
                   non_log (Find (group_id row) :: l) = [Find (group_id row)]).
  { intros l Hl. unfold non_log. simpl. f_equal. now apply prints_not_actions. }
  split; [|split].
  - intros Hcase. apply eligible_false in Hcase.
    destruct (Hno Hcase) as (-> & -> & Hp'). auto.
  - intros Hlv Hua Hub Hbo.
    assert (Hel : eligible fa fb = true) by (apply eligible_true; auto).
    destruct (createTeamCode_value dom fa Hbo) as (lv & bos & _ & _ & _ & _ & Hcode).
    destruct (Hok _ Hel Hcode) as (-> & Hact & ->).
    eexists. split; [exact Hcode|]. split; [reflexivity|].
    split; [|reflexivity].
    unfold non_log in *. simpl. now rewrite Hact.
  - intros Hlv Hua Hub Hbo.
    assert (Hel : eligible fa fb = true) by (apply eligible_true; auto).
    destruct (Hthrow TypeError Hel (createTeamCode_no_keys dom fa Hbo))
      as (-> & -> & Hp'). auto.
Qed.

Lemma larger_group_handled_as_first_pair_witness :
  let w1 := start (Some Sample.acme) (VBool false) Sample.fh_aaa
                  [Sample.x1; Sample.x2; Sample.x3] in
  let w2 := start (Some Sample.acme) (VBool false) Sample.fh_aaa
                  [Sample.x1; Sample.x2] in
  exists r evs u lines,
    forallb is_print lines = true
    /\ checkDups [Sample.x1; Sample.x2; Sample.x3] w1 = (Ok (eligible Sample.x1 Sample.x2), with_trace lines w1)
    /\ checkDups [Sample.x1; Sample.x2] w2 = (Ok (eligible Sample.x1 Sample.x2), with_trace lines w2)
    /\ process_group Sample.acme Sample.row_X w1 = (r, with_trace evs (apply_update u w1))
    /\ process_group Sample.acme Sample.row_X w2 = (r, with_trace evs (apply_update u w2))
    /\ (getLowestLevel (Some Sample.x1) = getLowestLevel (Some Sample.x2)
        \/ users Sample.x1 = [] \/ users Sample.x2 = [] ->
        r = Ok tt /\ u = None /\ non_log evs = [Find (group_id Sample.row_X)])
    /\ (getLowestLevel (Some Sample.x1) <> getLowestLevel (Some Sample.x2) ->
        users Sample.x1 <> [] -> users Sample.x2 <> [] ->
        business_objects Sample.x1 <> [] ->
        exists c,
          createTeamCode Sample.acme Sample.x1 = Ok c
          /\ r = Ok tt
          /\ non_log evs
             = [Find (group_id Sample.row_X);
                if truthy (dryrun w1)
                then PrintJson (_id Sample.x1) (set_code Sample.x1 c)
                else Update (_id Sample.x1) (set_code Sample.x1 c)]
          /\ u = if truthy (dryrun w1) then None
                 else Some (_id Sample.x1, set_code Sample.x1 c))
    /\ (getLowestLevel (Some Sample.x1) <> getLowestLevel (Some Sample.x2) ->
        users Sample.x1 <> [] -> users Sample.x2 <> [] ->
        business_objects Sample.x1 = [] ->
        r = Throw TypeError /\ u = None
        /\ non_log evs = [Find (group_id Sample.row_X)]).
Proof.
  apply (larger_group_handled_as_first_pair Sample.acme Sample.row_X
           Sample.x1 Sample.x2 [Sample.x3]);
    solve [reflexivity | discriminate].
Defined.

(** ** The loop and [main] *)

Lemma for_each_app (dom : jsstring) (pre rows : list group) (w : world) :
  for_each dom (pre ++ rows) w
  = match for_each dom pre w with
    | (Ok _, w') => for_each dom rows w'
    | (Throw e, w') => (Throw e, w')
    end.
Proof.
  revert w; induction pre as [|row pre IH]; intros w; [reflexivity|].
  simpl. unfold bind. destruct (process_group dom row w) as [[[]|e] w'].
  - apply IH.
  - reflexivity.
Qed.

Lemma main_run (w : world) (dom : jsstring) :
  domain w = Some dom ->
  db_name w = utf16 "fh-aaa" ->
  main w
  = if Nat.leb (List.length (relevant (group_by_code (teams w)))) 0
    then (Ok tt,
          with_trace [Print (utf16 "--(LOG)> "
                               ++ utf16 "All good, nothing to do. Aborting script.")]
                     (after_preamble dom w))
    else for_each dom (relevant (group_by_code (teams w))) (after_preamble dom w).
Proof.
  intros Hd Hn. destruct w as [d dr nm ts tr]. simpl in Hd, Hn. subst d nm.
  unfold main, after_preamble, default_dryrun, with_trace.
  cbv [bind get_domain get_dryrun]. cbn [domain dryrun].
  destruct (is_undefined dr);
    cbv [set_dryrun ret db_getName bind log print db_teams_aggregate emit];
    cbn [domain dryrun db_name teams trace]; rewrite str_eqb_refl; cbn [negb];
    rewrite <- ?app_assoc; cbn [app];
    destruct (Nat.leb _ 0); cbn [trace]; rewrite <- ?app_assoc; reflexivity.
Qed.

(** ** Precondition failures *)

Lemma main_missing_domain (w : world) :
  domain w = None ->
  main w = (Throw (Error (utf16 "Domain must be defined")), w).
Proof. intros Hd. unfold main. cbv [bind get_domain]. now rewrite Hd. Qed.

Lemma main_wrong_database (w : world) :
  domain w <> None ->
  db_name w <> utf16 "fh-aaa" ->
  main w
  = (Throw (Error (utf16 "Script must be run on fh-aaa database")),
     with_trace [GetName] (default_dryrun w)).
Proof.
  intros Hd Hn. apply str_eqb_neq in Hn.
  destruct w as [d dr nm ts tr]. simpl in Hd, Hn.
  destruct d as [dom|]; [clear Hd | congruence].
  unfold main, default_dryrun. cbv [bind get_domain get_dryrun].
  cbn [domain dryrun].
  destruct (is_undefined dr);
    cbv [set_dryrun ret db_getName bind throw];
    cbn [db_name domain dryrun teams trace];
    rewrite Hn; reflexivity.
Qed.

Lemma default_dryrun_frame (w : world) :
  teams (default_dryrun w) = teams w
  /\ trace (default_dryrun w) = trace w
  /\ domain (default_dryrun w) = domain w
  /\ db_name (default_dryrun w) = db_name w.
Proof. unfold default_dryrun. now destruct (is_undefined (dryrun w)). Qed.

(** C7. Without a domain, or on a database whose name is not "fh-aaa",
    [main] throws an [Error]; up to that point it has at most asked the
    database for its name: no aggregation, no [find], no update, no output,
    and the collection is untouched. *)
Theorem precondition_failure_aborts (w : world) :
  domain w = None \/ db_name w <> utf16 "fh-aaa" ->
  exists msg w' evs,
    main w = (Throw (Error msg), w')
    /\ teams w' = teams w
    /\ trace w' = trace w ++ evs
    /\ (evs = [] \/ evs = [GetName])
    /\ filter is_read evs = [] /\ filter is_update evs = []
    /\ (domain w = None ->
        msg = utf16 "Domain must be defined" /\ w' = w)
    /\ (domain w <> None ->
        msg = utf16 "Script must be run on fh-aaa database"
        /\ w' = with_trace [GetName] (default_dryrun w)).
Proof.
  intros H. destruct (domain w) as [dom|] eqn:Hd.
  - destruct H as [H|H]; [discriminate|].
    exists (utf16 "Script must be run on fh-aaa database"),
           (with_trace [GetName] (default_dryrun w)), [GetName].
    destruct (default_dryrun_frame w) as (Ht & Htr & _).
    split; [apply main_wrong_database; [congruence | exact H]|].
    split; [exact Ht|]. split; [cbn [with_trace trace]; now rewrite Htr|].
    repeat split; auto; discriminate.
  - exists (utf16 "Domain must be defined"), w, [].
    split; [now apply main_missing_domain|]. rewrite app_nil_r.
    repeat split; auto; congruence.
Qed.

Lemma precondition_failure_aborts_witness :
  let w := start None (VBool false) (utf16 "fh-aaa") [Sample.x1; Sample.x2] in
  exists msg w' evs,
    main w = (Throw (Error msg), w')
    /\ teams w' = teams w
    /\ trace w' = trace w ++ evs
    /\ (evs = [] \/ evs = [GetName])
    /\ filter is_read evs = [] /\ filter is_update evs = []
    /\ (domain w = None ->
        msg = utf16 "Domain must be defined" /\ w' = w)
    /\ (domain w <> None ->
        msg = utf16 "Script must be run on fh-aaa database"
        /\ w' = with_trace [GetName] (default_dryrun w)).
Proof.
  apply (precondition_failure_aborts
           (start None (VBool false) (utf16 "fh-aaa") [Sample.x1; Sample.x2])).
  left. reflexivity.
Defined.

Example wrong_database_aborts :
  main (start (Some Sample.acme) (VBool false) (utf16 "test")
              [Sample.x1; Sample.x2])
  = (Throw (Error (utf16 "Script must be run on fh-aaa database")),
     mkWorld (Some Sample.acme) (VBool false) (utf16 "test")
             [Sample.x1; Sample.x2] [GetName]).
Proof. reflexivity. Qed.

(** ** Simulation mode *)

Lemma process_group_dry (dom : jsstring) (row : group) (w : world) :
  truthy (dryrun w) = true ->
  exists r evs,
    process_group dom row w = (r, with_trace evs w)
    /\ filter is_update evs = [].
Proof.
  intros Hdry. destruct (truthy (group_defaultTeam row)) eqn:Hflag.
  - exists (Ok tt), []. rewrite with_trace_nil.
    split; [now apply process_group_skip | reflexivity].
  - destruct (find_teams (group_id row) (teams w)) as [|fa [|fb rest]] eqn:Hfind.
    1,2: exists (Throw TypeError), [Find (group_id row)];
         (split; [apply process_group_short; [assumption | rewrite Hfind; simpl; lia]
                 | reflexivity]).
    destruct (process_group_pair dom fa fb true)
      as (r & evs & u & Hrun & Hno & Hthrow & Hok).
    assert (Hu : u = None /\ filter is_update evs = []).
    { destruct (eligible fa fb) eqn:Hel.
      - destruct (createTeamCode dom fa) as [c|e] eqn:Hc.
        + destruct (Hok c eq_refl eq_refl) as (_ & Hact & ->).
          split; [reflexivity|]. now rewrite updates_of_non_log, Hact.
        + destruct (Hthrow e eq_refl eq_refl) as (_ & -> & Hp).
          split; [reflexivity | now apply updates_of_prints].
      - destruct (Hno eq_refl) as (_ & -> & Hp).
        split; [reflexivity | now apply updates_of_prints]. }
    destruct Hu as [-> Hupd].
    exists r, (Find (group_id row) :: evs). split.
    + now apply (Hrun row rest w).
    + simpl. exact Hupd.
Qed.

Lemma for_each_dry (dom : jsstring) (rows : list group) (w : world) :
  truthy (dryrun w) = true ->
  exists r evs,
    for_each dom rows w = (r, with_trace evs w)
    /\ filter is_update evs = [].
Proof.
  revert w; induction rows as [|row rows IH]; intros w Hdry.
  - exists (Ok tt), []. now rewrite with_trace_nil.
  - destruct (process_group_dry dom row w Hdry) as (r & evs & Hrun & Hupd).
    simpl. unfold bind. rewrite Hrun. destruct r as [[]|e].
    + destruct (IH (with_trace evs w) Hdry) as (r' & evs' & Hrun' & Hupd').
      exists r', (evs ++ evs'). rewrite Hrun', with_trace_app.
      split; [reflexivity|]. now rewrite filter_app, Hupd, Hupd'.
    + exists (Throw e), evs. auto.
Qed.

Lemma main_default_dryrun (w : world) :
  dryrun w = VUndefined -> domain w <> None ->
  main w = main (mkWorld (domain w) (VBool true) (db_name w) (teams w) (trace w)).
Proof.
  destruct w as [d dr nm ts tr]. simpl. intros -> Hd.
  destruct d as [dom|]; [|congruence].
  unfold main.
  cbv [bind get_domain get_dryrun set_dryrun ret is_undefined
       domain dryrun db_name teams trace].
  reflexivity.
Qed.

(** C6. When [dryrun] is truthy, or absent, at invocation, [main] issues
    no update whatever the collection holds, and the collection at the end
    is the one at the start. When [dryrun] is absent and the domain is
    given, the run is the run with [dryrun] set to [true], and the global
    holds [true] afterwards. *)
Theorem dryrun_issues_no_update (w : world) :
  truthy (dryrun w) = true \/ dryrun w = VUndefined ->
  exists r w' evs,
    main w = (r, w')
    /\ teams w' = teams w
    /\ trace w' = trace w ++ evs
    /\ filter is_update evs = []
    /\ (dryrun w = VUndefined -> domain w <> None ->
        dryrun w' = VBool true
        /\ main w
           = main (mkWorld (domain w) (VBool true) (db_name w) (teams w) (trace w))).
Proof.
  intros Hdry.
  destruct (domain w) as [dom|] eqn:Hd.
  2:{ exists (Throw (Error (utf16 "Domain must be defined"))), w, [].
      split; [now apply main_missing_domain|]. rewrite app_nil_r.
      repeat split; auto; congruence. }
  destruct (str_eqb (db_name w) (utf16 "fh-aaa")) eqn:Hn.
  2:{ apply str_eqb_neq in Hn.
      assert (Hdom : domain w <> None) by congruence.
      destruct (default_dryrun_frame w) as (Ht & Htr & _).
      exists (Throw (Error (utf16 "Script must be run on fh-aaa database"))),
             (with_trace [GetName] (default_dryrun w)), [GetName].
      split; [now apply main_wrong_database|].
      split; [exact Ht|]. split; [cbn [with_trace trace]; now rewrite Htr|].
      split; [reflexivity|]. intros Hu _.
      split; [unfold default_dryrun; now rewrite Hu|].
      pose proof (main_default_dryrun w Hu) as X. rewrite Hd in X.
      apply X. discriminate. }
  apply str_eqb_eq in Hn.
  assert (Hdry' : truthy (dryrun (after_preamble dom w)) = true).
  { unfold after_preamble, default_dryrun.
    destruct Hdry as [H|H]; [|now rewrite H].
    destruct (dryrun w) eqn:E; try discriminate; simpl; now rewrite E. }
  assert (Hteams : teams (after_preamble dom w) = teams w).
  { unfold after_preamble, default_dryrun.
    now destruct (is_undefined (dryrun w)). }
  assert (Htrace : trace (after_preamble dom w)
                   = trace w ++ [GetName;
                                 Print (utf16 "--(LOG)> " ++ utf16 "using domain: " ++ dom);
                                 Aggregate]).
  { unfold after_preamble, default_dryrun.
    now destruct (is_undefined (dryrun w)). }
  assert (Hmain := main_run w dom Hd Hn).
  assert (Hres : exists r evs,
             main w = (r, with_trace evs (after_preamble dom w))
             /\ filter is_update evs = []).
  { rewrite Hmain. destruct (Nat.leb _ 0).
    - eexists. eexists. split; reflexivity.
    - apply for_each_dry. exact Hdry'. }
  destruct Hres as (r & evs & Hrun & Hupd).
  exists r, (with_trace evs (after_preamble dom w)),
         ([GetName; Print (utf16 "--(LOG)> " ++ utf16 "using domain: " ++ dom);
           Aggregate] ++ evs).
  split; [exact Hrun|]. split; [exact Hteams|].
  split; [cbn [with_trace trace]; now rewrite Htrace, <- app_assoc|].
  split; [now rewrite filter_app, Hupd|].
  intros Hu Hdom. split; [unfold after_preamble, default_dryrun; now rewrite Hu|].
  pose proof (main_default_dryrun w Hu) as X. rewrite Hd in X.
  apply X. discriminate.
Qed.

Lemma dryrun_issues_no_update_witness :
  let w := start (Some Sample.acme) VUndefined Sample.fh_aaa
                 [Sample.x1; Sample.x2; Sample.x3] in
  exists r w' evs,
    main w = (r, w')
    /\ teams w' = teams w
    /\ trace w' = trace w ++ evs
    /\ filter is_update evs = []
    /\ (dryrun w = VUndefined -> domain w <> None ->
        dryrun w' = VBool true
        /\ main w
           = main (mkWorld (domain w) (VBool true) (db_name w) (teams w) (trace w))).
Proof.
  apply (dryrun_issues_no_update
           (start (Some Sample.acme) VUndefined Sample.fh_aaa
                  [Sample.x1; Sample.x2; Sample.x3])).
  right. reflexivity.
Defined.

(** ** Groups with fewer than two non-default documents *)

Lemma group_by_code_no_flag (ts : list team) (row : group) :
  In row (group_by_code ts) -> group_defaultTeam row = VUndefined.
Proof.
  unfold group_by_code. intros H. apply in_map_iff in H.
  destruct H as (cn & <- & _). reflexivity.
Qed.

(** The guard [if (team.defaultTeam) continue] never fires on a row of
    the aggregation. *)
Lemma aggregate_rows_never_skipped (ts : list team) (row : group) :
  In row (relevant (group_by_code ts)) ->
  truthy (group_defaultTeam row) = false.
Proof.
  unfold relevant. intros H. apply filter_In in H. destruct H as [H _].
  now rewrite (group_by_code_no_flag ts row H).
Qed.

Lemma checkDups_short (dups : list team) (w : world) :
  List.length dups < 2 ->
  nth_error dups 1 = None /\ checkDups dups w = (Throw TypeError, w).
Proof.
  intros L. destruct dups as [|a [|b r]]; [| |simpl in L; lia];
    split; reflexivity.
Qed.

(** C10. When the loop of [main] reaches a duplicate group for which the
    [find] returns fewer than two documents (fewer than two non-default
    teams carry the code), index 1 of the fetched array is past its end,
    [checkDups] throws a TypeError on the missing document, and the run
    ends there with that error: the last thing it did is the [find] for
    that group, and no later group is processed. *)
Theorem short_group_aborts_run
        (w : world) (dom : jsstring) (pre post : list group) (row : group)
        (w' : world) :
  domain w = Some dom ->
  db_name w = utf16 "fh-aaa" ->
  relevant (group_by_code (teams w)) = pre ++ row :: post ->
  for_each dom pre (after_preamble dom w) = (Ok tt, w') ->
  List.length (find_teams (group_id row) (teams w')) < 2 ->
  nth_error (find_teams (group_id row) (teams w')) 1 = None
  /\ (forall w0, checkDups (find_teams (group_id row) (teams w')) w0
                 = (Throw TypeError, w0))
  /\ main w = (Throw TypeError, with_trace [Find (group_id row)] w').
Proof.
  intros Hd Hn Hrows Hpre Hshort.
  split; [apply (checkDups_short _ w' Hshort)|].
  split; [intros w0; apply (checkDups_short _ w0 Hshort)|].
  rewrite (main_run w dom Hd Hn), Hrows.
  assert (Hlen : Nat.leb (List.length (pre ++ row :: post)) 0 = false).
  { rewrite length_app. simpl. apply Nat.leb_gt. lia. }
  rewrite Hlen, for_each_app, Hpre. simpl. unfold bind.
  rewrite process_group_short; [reflexivity | | exact Hshort].
  apply (aggregate_rows_never_skipped (teams w)).
  rewrite Hrows. apply in_or_app. right. now left.
Qed.

Lemma short_group_aborts_run_witness :
  let w := start (Some Sample.acme) (VBool true) Sample.fh_aaa
                 [Sample.d1; Sample.d2; Sample.x1; Sample.x2] in
  let row := mkGroup (utf16 "D") 2 VUndefined in
  let w' := after_preamble Sample.acme w in
  nth_error (find_teams (group_id row) (teams w')) 1 = None
  /\ (forall w0, checkDups (find_teams (group_id row) (teams w')) w0
                 = (Throw TypeError, w0))
  /\ main w = (Throw TypeError, with_trace [Find (group_id row)] w').
Proof.
  apply (short_group_aborts_run
           (start (Some Sample.acme) (VBool true) Sample.fh_aaa
                  [Sample.d1; Sample.d2; Sample.x1; Sample.x2])
           Sample.acme [] [mkGroup (utf16 "X") 2 VUndefined]
           (mkGroup (utf16 "D") 2 VUndefined));
    try reflexivity.
  simpl. lia.
Defined.

(** Every exception of the loop is a TypeError. *)
Lemma createTeamCode_throws (dom : jsstring) (t : team) (e : exn) :
  createTeamCode dom t = Throw e -> e = TypeError.
Proof.
  unfold createTeamCode. rewrite getLowestLevel_some.
  destruct (lookup _ _); congruence.
Qed.

Lemma process_group_throws (dom : jsstring) (row : group) (w w' : world) (e : exn) :
  process_group dom row w = (Throw e, w') -> e = TypeError.
Proof.
  destruct (truthy (group_defaultTeam row)) eqn:Hflag.
  - rewrite process_group_skip by assumption. discriminate.
  - destruct (find_teams (group_id row) (teams w)) as [|fa [|fb rest]] eqn:Hfind.
    1,2: rewrite process_group_short by (try assumption; rewrite Hfind; simpl; lia);
         congruence.
    destruct (process_group_pair dom fa fb (truthy (dryrun w)))
      as (r & evs & u & Hrun & Hno & Hthrow & Hok).
    rewrite (Hrun row rest w Hflag eq_refl Hfind). intros H.
    assert (Hr : r = Throw e) by congruence. clear H.
    destruct (eligible fa fb) eqn:Hel.
    + destruct (createTeamCode dom fa) as [c|e'] eqn:Hc.
      * destruct (Hok c eq_refl eq_refl) as (-> & _). discriminate.
      * destruct (Hthrow e' eq_refl eq_refl) as (-> & _).
        injection Hr as <-. now apply (createTeamCode_throws dom fa).
    + destruct (Hno eq_refl) as (-> & _). discriminate.
Qed.

(** In simulation mode the collection never changes, so a group that is
    short in the collection at the start is short when its turn comes:
    the run ends with a TypeError, at that group or at an earlier one. *)
Lemma for_each_dry_short (dom : jsstring) (rows : list group) (row : group) (w : world) :
  truthy (dryrun w) = true ->
  Forall (fun r => truthy (group_defaultTeam r) = false) rows ->
  In row rows ->
  List.length (find_teams (group_id row) (teams w)) < 2 ->
  fst (for_each dom rows w) = Throw TypeError.
Proof.
  revert w; induction rows as [|r rows IH]; intros w Hdry Hall Hin Hshort;
    [destruct Hin|].
  inversion Hall as [|? ? Hr Hall']; subst.
  simpl. unfold bind.
  destruct (process_group dom r w) as [[[]|e] w1] eqn:Hrun.
  - destruct (process_group_dry dom r w Hdry) as (r0 & evs & Hrun' & _).
    rewrite Hrun in Hrun'. injection Hrun' as _ ->.
    destruct Hin as [->|Hin].
    + rewrite process_group_short in Hrun by assumption. discriminate.
    + now apply IH.
  - simpl. f_equal. now apply (process_group_throws dom r w w1).
Qed.

Lemma dry_run_short_group_aborts (w : world) (dom : jsstring) (row : group) :
  domain w = Some dom ->
  db_name w = utf16 "fh-aaa" ->
  truthy (dryrun w) = true \/ dryrun w = VUndefined ->
  In row (relevant (group_by_code (teams w))) ->
  List.length (find_teams (group_id row) (teams w)) < 2 ->
  fst (main w) = Throw TypeError.
Proof.
  intros Hd Hn Hdry Hin Hshort. rewrite (main_run w dom Hd Hn).
  destruct (relevant (group_by_code (teams w))) as [|r0 rows] eqn:Hrel;
    [destruct Hin|].
  cbn [List.length Nat.leb].
  assert (Hteams : teams (after_preamble dom w) = teams w).
  { unfold after_preamble, default_dryrun.
    now destruct (is_undefined (dryrun w)). }
  apply (for_each_dry_short dom (r0 :: rows) row).
  - unfold after_preamble, default_dryrun.
    destruct Hdry as [H|H]; [|now rewrite H].
    destruct (dryrun w) eqn:E; try discriminate; simpl; now rewrite E.
  - rewrite <- Hrel. apply Forall_forall. intros r Hr.
    now apply (aggregate_rows_never_skipped (teams w)).
  - exact Hin.
  - now rewrite Hteams.
Qed.

(** ** Default teams *)

(** C5, the code at a group of default teams: two default teams share
    the code "D", two ordinary teams share the code "X". The row for "D"
    carries no [defaultTeam] property, so it is not skipped: the [find]
    for "D" is issued, it returns no document, [checkDups] throws, and the
    run ends with a TypeError before the group "X" is looked at. *)
Lemma default_team_group_not_skipped :
  let w := start (Some Sample.acme) (VBool true) Sample.fh_aaa
                 [Sample.d1; Sample.d2; Sample.x1; Sample.x2] in
  group_by_code (teams w)
  = [mkGroup (utf16 "D") 2 VUndefined; mkGroup (utf16 "X") 2 VUndefined]
  /\ find_teams (utf16 "D") (teams w) = []
  /\ main w
     = (Throw TypeError,
        mkWorld (Some Sample.acme) (VBool true) Sample.fh_aaa
                [Sample.d1; Sample.d2; Sample.x1; Sample.x2]
                [GetName;
                 Print (utf16 "--(LOG)> using domain: acme");
                 Aggregate;
                 Find (utf16 "D")]).
Proof. repeat split; reflexivity. Qed.

(** The guard as written does skip a row that carries a truthy
    [defaultTeam]; such a row never comes out of the aggregation. *)
Lemma flagged_row_would_be_skipped (dom : jsstring) (c : jsstring) (n : Z) (w : world) :
  process_group dom (mkGroup c n (VBool true)) w = (Ok tt, w)
  /\ forall ts, ~ In (mkGroup c n (VBool true)) (group_by_code ts).
Proof.
  split; [reflexivity|]. intros ts H.
  apply group_by_code_no_flag in H. discriminate.
Qed.

(** ** The grouping and the first loop of [main] *)

Lemma str_eqb_sym (a b : jsstring) : str_eqb a b = str_eqb b a.
Proof.
  destruct (str_eqb a b) eqn:E, (str_eqb b a) eqn:E'; try reflexivity.
  - apply str_eqb_eq in E. subst. rewrite str_eqb_refl in E'. discriminate.
  - apply str_eqb_eq in E'. subst. rewrite str_eqb_refl in E. discriminate.
Qed.

Lemma count_code_count (c c' : jsstring) (acc : list (jsstring * Z)) :
  count_of c' (count_code c acc)
  = (count_of c' acc + if str_eqb c c' then 1 else 0)%Z.
Proof.
  induction acc as [|[k n] r IH]; simpl.
  - rewrite (str_eqb_sym c' c). destruct (str_eqb c c'); reflexivity.
  - destruct (str_eqb c k) eqn:Ek; simpl.
    + apply str_eqb_eq in Ek. subst k. rewrite (str_eqb_sym c' c).
      destruct (str_eqb c c'); lia.
    + destruct (str_eqb c' k) eqn:Ek'; [|exact IH].
      apply str_eqb_eq in Ek'. subst k. rewrite Ek. lia.
Qed.

Lemma count_code_keys (c : jsstring) (acc : list (jsstring * Z)) :
  map fst (count_code c acc)
  = if existsb (str_eqb c) (map fst acc) then map fst acc
    else map fst acc ++ [c].
Proof.
  induction acc as [|[k n] r IH]; simpl; [reflexivity|].
  destruct (str_eqb c k); simpl; [reflexivity|].
  rewrite IH. now destruct (existsb (str_eqb c) (map fst r)).
Qed.

Lemma count_code_nodup (c : jsstring) (acc : list (jsstring * Z)) :
  NoDup (map fst acc) -> NoDup (map fst (count_code c acc)).
Proof.
  intros H. rewrite count_code_keys.
  destruct (existsb (str_eqb c) (map fst acc)) eqn:E; [exact H|].
  apply NoDup_app; [exact H | repeat constructor; intros [] |].
  intros k Hin [Hk|[]]. subst k.
  assert (existsb (str_eqb c) (map fst acc) = true); [|congruence].
  apply existsb_exists. exists c. split; [exact Hin | apply str_eqb_refl].
Qed.

Lemma count_code_positive (c : jsstring) (acc : list (jsstring * Z)) :
  Forall (fun cn => (1 <= snd cn)%Z) acc ->
  Forall (fun cn => (1 <= snd cn)%Z) (count_code c acc).
Proof.
  induction 1 as [|[k n] r Hk Hr IH]; simpl; [repeat constructor; simpl; lia|].
  destruct (str_eqb c k); constructor; simpl in *; auto; lia.
Qed.

Lemma fold_count_code (ts : list team) (acc : list (jsstring * Z)) :
  let res := fold_left (fun acc t => count_code (code t) acc) ts acc in
  (NoDup (map fst acc) -> NoDup (map fst res))
  /\ (Forall (fun cn => (1 <= snd cn)%Z) acc ->
      Forall (fun cn => (1 <= snd cn)%Z) res)
  /\ forall c, count_of c res = (count_of c acc + Z.of_nat (occurrences c ts))%Z.
Proof.
  revert acc; induction ts as [|t ts IH]; intros acc; simpl.
  - repeat split; auto. intros c. unfold occurrences. simpl. lia.
  - destruct (IH (count_code (code t) acc)) as (Hnd & Hpos & Hcnt).
    split; [intros H; apply Hnd, count_code_nodup, H|].
    split; [intros H; apply Hpos, count_code_positive, H|].
    intros c. rewrite Hcnt, count_code_count. unfold occurrences. simpl.
    destruct (str_eqb (code t) c); simpl; lia.
Qed.

Lemma count_of_in (c : jsstring) (n : Z) (acc : list (jsstring * Z)) :
  NoDup (map fst acc) -> In (c, n) acc -> count_of c acc = n.
Proof.
  induction acc as [|[k m] r IH]; simpl; [intros _ []|].
  intros Hnd Hin. inversion Hnd as [|? ? Hnot Hnd']; subst.
  destruct Hin as [E|Hin].
  - injection E as -> ->. now rewrite str_eqb_refl.
  - destruct (str_eqb c k) eqn:Ek; [|now apply IH].
    apply str_eqb_eq in Ek. subst k. exfalso. apply Hnot.
    change c with (fst (c, n)). now apply in_map.
Qed.

Lemma count_of_positive_in (c : jsstring) (acc : list (jsstring * Z)) :
  (0 < count_of c acc)%Z -> In (c, count_of c acc) acc.
Proof.
  induction acc as [|[k m] r IH]; simpl; [lia|].
  destruct (str_eqb c k) eqn:Ek.
  - apply str_eqb_eq in Ek. subst k. now left.
  - intros H. right. now apply IH.
Qed.

(** Dropping rows keeps their codes distinct. *)
Lemma relevant_in_rows (rows : list group) (row : group) :
  In row (relevant rows) -> In row rows.
Proof. unfold relevant. intros H. now apply filter_In in H. Qed.

Lemma relevant_distinct (rows : list group) :
  NoDup (map group_id rows) -> NoDup (map group_id (relevant rows)).
Proof.
  induction rows as [|row rows IH]; intros Hnd; [exact Hnd|].
  change (map group_id (row :: rows)) with (group_id row :: map group_id rows) in Hnd.
  apply NoDup_cons_iff in Hnd. destruct Hnd as [Hfresh Hnd].
  unfold relevant. cbn [filter]. fold (relevant rows).
  destruct (1 <? count row)%Z; [|exact (IH Hnd)].
  cbn [map]. apply NoDup_cons_iff. split; [|exact (IH Hnd)].
  intros Hin. apply Hfresh. apply in_map_iff in Hin.
  destruct Hin as (other & Hid & Hother).
  apply in_map_iff. exists other. split; [exact Hid|].
  now apply relevant_in_rows.
Qed.

(** The grouping: one row per code, with its number of documents. *)
Lemma group_by_code_spec (ts : list team) :
  NoDup (map group_id (group_by_code ts))
  /\ (forall row, In row (group_by_code ts) ->
        count row = Z.of_nat (occurrences (group_id row) ts))
  /\ (forall c, 1 <= occurrences c ts ->
        In (mkGroup c (Z.of_nat (occurrences c ts)) VUndefined)
           (group_by_code ts)).
Proof.
  destruct (fold_count_code ts []) as (Hnd & _ & Hcnt). simpl in Hnd, Hcnt.
  specialize (Hnd (NoDup_nil _)).
  unfold group_by_code.
  set (acc := fold_left (fun acc t => count_code (code t) acc) ts []) in *.
  split; [|split].
  - rewrite map_map. erewrite map_ext; [exact Hnd | reflexivity].
  - intros row Hin. apply in_map_iff in Hin.
    destruct Hin as ([c n] & <- & Hin). simpl.
    rewrite <- (count_of_in c n acc Hnd Hin). apply Hcnt.
  - intros c Hc. apply in_map_iff.
    exists (c, Z.of_nat (occurrences c ts)). split; [reflexivity|].
    rewrite <- (Z.add_0_l (Z.of_nat _)).
    change 0%Z with (count_of c []) at 1. rewrite <- Hcnt.
    apply count_of_positive_in. rewrite Hcnt. simpl. lia.
Qed.

Lemma relevant_in (ts : list team) (row : group) :
  In row (relevant (group_by_code ts)) ->
  2 <= occurrences (group_id row) ts.
Proof.
  unfold relevant. intros Hin. apply filter_In in Hin.
  destruct Hin as [Hin Hgt]. apply Z.ltb_lt in Hgt.
  destruct (group_by_code_spec ts) as (_ & Hrow & _).
  rewrite (Hrow row Hin) in Hgt. lia.
Qed.

Lemma relevant_of_duplicate (ts : list team) (c : jsstring) :
  2 <= occurrences c ts ->
  In (mkGroup c (Z.of_nat (occurrences c ts)) VUndefined)
     (relevant (group_by_code ts)).
Proof.
  intros Hc. unfold relevant. apply filter_In. split.
  - destruct (group_by_code_spec ts) as (_ & _ & Hin). apply Hin. lia.
  - simpl. apply Z.ltb_lt. lia.
Qed.

(** X1. The rows the first loop keeps are the codes carried by at least
    two documents, each once, with its number of documents; none of them
    has a [defaultTeam] property. *)
Theorem relevant_rows_are_duplicated_codes (ts : list team) :
  NoDup (map group_id (relevant (group_by_code ts)))
  /\ (forall row, In row (relevant (group_by_code ts)) ->
        count row = Z.of_nat (occurrences (group_id row) ts)
        /\ 2 <= occurrences (group_id row) ts
        /\ group_defaultTeam row = VUndefined)
  /\ (forall c, 2 <= occurrences c ts ->
        In (mkGroup c (Z.of_nat (occurrences c ts)) VUndefined)
           (relevant (group_by_code ts))).
Proof.
  destruct (group_by_code_spec ts) as (Hnd & Hrow & _).
  split; [|split].
  - now apply relevant_distinct.
  - intros row Hin. split; [|split].
    + apply Hrow. unfold relevant in Hin. now apply filter_In in Hin.
    + now apply relevant_in.
    + apply (group_by_code_no_flag ts). unfold relevant in Hin.
      now apply filter_In in Hin.
  - apply relevant_of_duplicate.
Qed.

(** ** What every iteration does *)

Lemma reads_of_non_log (evs : list event) :
  filter is_read evs = filter is_read (non_log evs).
Proof.
  unfold non_log. induction evs as [|e evs IH]; [reflexivity|].
  destruct e; simpl; rewrite ?IH; reflexivity.
Qed.

Lemma find_teams_in (c : jsstring) (ts : list team) (t : team) :
  In t (find_teams c ts) <-> In t ts /\ defaultTeam t = false /\ code t = c.
Proof.
  unfold find_teams. rewrite filter_In, andb_true_iff, negb_true_iff, str_eqb_eq.
  tauto.
Qed.

Lemma createTeamCode_set_code (dom : jsstring) (t : team) (c : jsstring) :
  createTeamCode dom (set_code t c) = createTeamCode dom t.
Proof. reflexivity. Qed.

(** One iteration, on any row and in any world: its outcome [r], the
    events [evs] it adds and the update [u] it applies, if any. *)
Lemma process_group_step (dom : jsstring) (row : group) (w : world) :
  exists r evs u,
    process_group dom row w = (r, with_trace evs (apply_update u w))
    /\ (r = Ok tt \/ r = Throw TypeError)
    /\ filter is_read evs
       = (if truthy (group_defaultTeam row) then [] else [Find (group_id row)])
    /\ Forall (well_formed_write dom) evs
    /\ match u with
       | None => filter is_update evs = []
       | Some (id, document) =>
           exists fa c,
             hd_error (find_teams (group_id row) (teams w)) = Some fa
             /\ createTeamCode dom fa = Ok c
             /\ id = _id fa /\ document = set_code fa c
             /\ filter is_update evs = [Update id document]
             /\ truthy (dryrun w) = false
             /\ r = Ok tt
       end.
Proof.
  destruct (truthy (group_defaultTeam row)) eqn:Hflag.
  { exists (Ok tt), [], None. rewrite with_trace_nil.
    split; [now apply process_group_skip|]. repeat split; auto. }
  destruct (find_teams (group_id row) (teams w)) as [|fa [|fb rest]] eqn:Hfind.
  1,2: exists (Throw TypeError), [Find (group_id row)], None; cbn [apply_update];
       (split; [apply process_group_short; [assumption | rewrite Hfind; simpl; lia]|]);
       repeat split; auto; repeat constructor.
  assert (Hfa : defaultTeam fa = false).
  { assert (Hin : In fa (find_teams (group_id row) (teams w)))
      by (rewrite Hfind; now left).
    apply find_teams_in in Hin. tauto. }
  destruct (process_group_pair dom fa fb (truthy (dryrun w)))
    as (r & evs & u & Hrun & Hno & Hthrow & Hok).
  exists r, (Find (group_id row) :: evs), u.
  split; [now apply (Hrun row rest w)|].
  assert (Hprints : forall l, forallb is_print l = true ->
                      Forall (well_formed_write dom) l).
  { intros l Hl. apply Forall_forall. intros e He.
    rewrite forallb_forall in Hl. specialize (Hl e He).
    destruct e; try discriminate. exact I. }
  assert (Hwf : forall l, Forall (well_formed_write dom) (non_log l) ->
                  Forall (well_formed_write dom) l).
  { intros l Hl. rewrite Forall_forall in *. intros e He.
    destruct (is_print e) eqn:Ep; [destruct e; try discriminate; exact I|].
    apply Hl. unfold non_log. apply filter_In. now rewrite Ep. }
  destruct (eligible fa fb) eqn:Hel.
  - destruct (createTeamCode dom fa) as [c|e] eqn:Hc.
    + destruct (Hok c eq_refl eq_refl) as (-> & Hact & ->).
      split; [now left|].
      split; [simpl; f_equal; rewrite reads_of_non_log, Hact;
              now destruct (truthy (dryrun w))|].
      split.
      * constructor; [exact I|]. apply Hwf. rewrite Hact.
        constructor; [|constructor].
        destruct (truthy (dryrun w)); simpl; repeat split; auto.
      * destruct (truthy (dryrun w)) eqn:Hdry.
        -- simpl. now rewrite updates_of_non_log, Hact.
        -- exists fa, c. repeat split; auto.
           simpl. now rewrite updates_of_non_log, Hact.
    + destruct (Hthrow e eq_refl eq_refl) as (-> & -> & Hp).
      split; [right; f_equal; now apply (createTeamCode_throws dom fa)|].
      split; [simpl; f_equal; rewrite reads_of_non_log;
              now rewrite (prints_not_actions _ Hp)|].
      split; [constructor; [exact I | now apply Hprints]|].
      simpl. now apply updates_of_prints.
  - destruct (Hno eq_refl) as (-> & -> & Hp).
    split; [now left|].
    split; [simpl; f_equal; rewrite reads_of_non_log;
            now rewrite (prints_not_actions _ Hp)|].
    split; [constructor; [exact I | now apply Hprints]|].
    simpl. now apply updates_of_prints.
Qed.

(** ** What a whole run does *)

Lemma replace_first_ids (fa : team) (c : jsstring) (ts : list team) :
  map _id (replace_first (_id fa) (set_code fa c) ts) = map _id ts.
Proof.
  induction ts as [|t ts IH]; [reflexivity|]. simpl.
  destruct (str_eqb (_id t) (_id fa)) eqn:E; simpl.
  - apply str_eqb_eq in E. now rewrite E.
  - now rewrite IH.
Qed.

Lemma code_only_changes_refl (ts : list team) : code_only_changes ts ts.
Proof. induction ts; constructor; auto. Qed.

Lemma code_only_changes_trans (a b c : list team) :
  code_only_changes a b -> code_only_changes b c -> code_only_changes a c.
Proof.
  unfold code_only_changes. intros Hab. revert c.
  induction Hab as [|x y a b Hxy Hab IH]; intros c Hbc;
    inversion Hbc as [|? z ? c' Hyz Hbc']; subst; constructor; [|now apply IH].
  destruct Hxy as [->|(Hx & cx & ->)]; [exact Hyz|].
  right. split; [exact Hx|].
  destruct Hyz as [->|(_ & cz & ->)]; [now exists cx | now exists cz].
Qed.

Lemma replace_first_code_only (fa : team) (c : jsstring) (ts : list team) :
  NoDup (map _id ts) -> In fa ts -> defaultTeam fa = false ->
  code_only_changes ts (replace_first (_id fa) (set_code fa c) ts).
Proof.
  intros Hnd Hin Hfa. induction ts as [|t ts IH]; [destruct Hin|].
  simpl in *. inversion Hnd as [|? ? Hnot Hnd']; subst.
  destruct (str_eqb (_id t) (_id fa)) eqn:E.
  - apply str_eqb_eq in E.
    assert (t = fa).
    { destruct Hin as [->|Hin]; [reflexivity|].
      exfalso. apply Hnot. rewrite E. now apply in_map. }
    subst t. constructor; [|apply code_only_changes_refl].
    right. split; [exact Hfa | now exists c].
  - constructor; [now left|]. apply IH; [exact Hnd'|].
    destruct Hin as [->|Hin]; [rewrite str_eqb_refl in E; discriminate | exact Hin].
Qed.

Lemma hd_error_in (A : Type) (l : list A) (x : A) : hd_error l = Some x -> In x l.
Proof. destruct l; simpl; [discriminate|]. intros H. injection H as ->. now left. Qed.

Lemma for_each_summary (dom : jsstring) (rows : list group) (w : world) :
  exists r evs w',
    for_each dom rows w = (r, w')
    /\ (r = Ok tt \/ r = Throw TypeError)
    /\ domain w' = domain w /\ dryrun w' = dryrun w /\ db_name w' = db_name w
    /\ trace w' = trace w ++ evs
    /\ map _id (teams w') = map _id (teams w)
    /\ List.length (filter is_update evs) <= List.length rows
    /\ List.length (filter is_read evs) <= List.length rows
    /\ Forall (well_formed_write dom) evs
    /\ (NoDup (map _id (teams w)) -> code_only_changes (teams w) (teams w')).
Proof.
  revert w; induction rows as [|row rows IH]; intros w.
  { exists (Ok tt), [], w. rewrite app_nil_r. repeat split; auto.
    intros _. apply code_only_changes_refl. }
  destruct (process_group_step dom row w)
    as (r & evs & u & Hrun & Hr & Hreads & Hwf & Hu).
  set (w1 := with_trace evs (apply_update u w)) in *.
  assert (Hframe : domain w1 = domain w /\ dryrun w1 = dryrun w
                   /\ db_name w1 = db_name w /\ trace w1 = trace w ++ evs).
  { unfold w1. destruct u as [[id document]|]; repeat split; reflexivity. }
  assert (Hteams : map _id (teams w1) = map _id (teams w)
                   /\ (NoDup (map _id (teams w)) ->
                       code_only_changes (teams w) (teams w1))).
  { unfold w1. destruct u as [[id document]|]; simpl.
    - destruct Hu as (fa & c & Hhd & _ & -> & -> & _).
      split; [apply replace_first_ids|]. intros Hnd.
      apply hd_error_in, find_teams_in in Hhd.
      apply replace_first_code_only; tauto.
    - split; [reflexivity | intros _; apply code_only_changes_refl]. }
  assert (Hupd : List.length (filter is_update evs) <= 1).
  { destruct u as [[id document]|].
    - destruct Hu as (fa & c & _ & _ & _ & _ & -> & _). simpl. lia.
    - rewrite Hu. simpl. lia. }
  assert (Hrd : List.length (filter is_read evs) <= 1).
  { rewrite Hreads. destruct (truthy (group_defaultTeam row)); simpl; lia. }
  destruct Hframe as (Hd & Hdr & Hn & Htr). destruct Hteams as (Hids & Hcode).
  simpl. unfold bind. rewrite Hrun. destruct r as [[]|e].
  - destruct (IH w1) as (r' & evs' & w' & Hrun' & Hr' & Hd' & Hdr' & Hn' & Htr'
                         & Hids' & Hupd' & Hrd' & Hwf' & Hcode').
    exists r', (evs ++ evs'), w'. split; [exact Hrun'|].
    split; [exact Hr'|]. split; [congruence|]. split; [congruence|].
    split; [congruence|]. split; [rewrite Htr', Htr; now rewrite app_assoc|].
    split; [congruence|].
    split; [rewrite filter_app, length_app; simpl; lia|].
    split; [rewrite filter_app, length_app; simpl; lia|].
    split; [now apply Forall_app|].
    intros Hnd. eapply code_only_changes_trans; [now apply Hcode|].
    apply Hcode'. now rewrite Hids.
  - exists (Throw e), evs, w1. split; [reflexivity|].
    split; [exact Hr|]. repeat (split; [assumption|]).
    split; [simpl; lia|]. split; [simpl; lia|]. split; assumption.
Qed.

Lemma after_preamble_frame (dom : jsstring) (w : world) :
  domain (after_preamble dom w) = domain w
  /\ db_name (after_preamble dom w) = db_name w
  /\ teams (after_preamble dom w) = teams w
  /\ trace (after_preamble dom w)
     = trace w ++ [GetName;
                   Print (utf16 "--(LOG)> " ++ utf16 "using domain: " ++ dom);
                   Aggregate]
  /\ dryrun (after_preamble dom w)
     = (if is_undefined (dryrun w) then VBool true else dryrun w).
Proof.
  unfold after_preamble, default_dryrun.
  destruct (is_undefined (dryrun w)); repeat split; reflexivity.
Qed.

(** The summary of [main] in any world. *)
Lemma main_summary (w : world) :
  exists r evs w',
    main w = (r, w')
    /\ domain w' = domain w /\ db_name w' = db_name w
    /\ trace w' = trace w ++ evs
    /\ map _id (teams w') = map _id (teams w)
    /\ List.length (filter is_update evs)
       <= List.length (relevant (group_by_code (teams w)))
    /\ List.length (filter is_read evs)
       <= 1 + List.length (relevant (group_by_code (teams w)))
    /\ (forall dom, domain w = Some dom -> Forall (well_formed_write dom) evs)
    /\ (NoDup (map _id (teams w)) -> code_only_changes (teams w) (teams w'))
    /\ (r = Ok tt
        \/ (r = Throw TypeError /\ relevant (group_by_code (teams w)) <> [])
        \/ (r = Throw (Error (utf16 "Domain must be defined"))
            /\ domain w = None)
        \/ (r = Throw (Error (utf16 "Script must be run on fh-aaa database"))
            /\ db_name w <> utf16 "fh-aaa")).
Proof.
  destruct (domain w) as [dom|] eqn:Hd.
  2:{ exists (Throw (Error (utf16 "Domain must be defined"))), [], w.
      split; [now apply main_missing_domain|]. rewrite app_nil_r.
      split; [exact Hd|]. split; [reflexivity|]. split; [reflexivity|].
      split; [reflexivity|]. split; [simpl; lia|]. split; [simpl; lia|].
      split; [intros dom H; discriminate|].
      split; [intros _; apply code_only_changes_refl|].
      right. right. left. auto. }
  destruct (str_eqb (db_name w) (utf16 "fh-aaa")) eqn:Hn.
  2:{ apply str_eqb_neq in Hn.
      destruct (default_dryrun_frame w) as (Ht & Htr & Hdom & Hnm).
      exists (Throw (Error (utf16 "Script must be run on fh-aaa database"))),
             [GetName], (with_trace [GetName] (default_dryrun w)).
      split; [apply main_wrong_database; congruence|].
      cbn [with_trace domain db_name trace teams].
      split; [congruence|]. split; [exact Hnm|]. split; [now rewrite Htr|].
      split; [now rewrite Ht|]. split; [simpl; lia|]. split; [simpl; lia|].
      split; [intros; repeat constructor|].
      split; [intros _; rewrite Ht; apply code_only_changes_refl|].
      right. right. right. auto. }
  apply str_eqb_eq in Hn. rewrite (main_run w dom Hd Hn).
  destruct (after_preamble_frame dom w) as (Pd & Pn & Pt & Ptr & _).
  destruct (relevant (group_by_code (teams w))) as [|row rows] eqn:Hrows.
  - cbn [List.length Nat.leb]. eexists. eexists. eexists.
    split; [reflexivity|]. cbn [with_trace domain db_name trace teams].
    split; [congruence|]. split; [exact Pn|].
    split; [rewrite Ptr, <- app_assoc; reflexivity|].
    split; [now rewrite Pt|]. split; [simpl; lia|]. split; [simpl; lia|].
    split; [intros; repeat constructor|].
    split; [intros _; rewrite Pt; apply code_only_changes_refl|]. now left.
  - cbn [List.length Nat.leb].
    destruct (for_each_summary dom (row :: rows) (after_preamble dom w))
      as (r & evs & w' & Hrun & Hr & Hd' & _ & Hn' & Htr' & Hids & Hupd & Hrd
          & Hwf & Hcode).
    exists r, ([GetName;
                Print (utf16 "--(LOG)> " ++ utf16 "using domain: " ++ dom);
                Aggregate] ++ evs), w'.
    split; [exact Hrun|]. split; [congruence|]. split; [congruence|].
    split; [rewrite Htr', Ptr, <- app_assoc; reflexivity|].
    split; [now rewrite Hids, Pt|].
    split; [rewrite filter_app, length_app; simpl in *; lia|].
    split; [rewrite filter_app, length_app; simpl in *; lia|].
    split.
    { intros dom' Hdom'. injection Hdom' as <-.
      apply Forall_app. split; [repeat constructor | exact Hwf]. }
    split; [intros Hnd; rewrite <- Pt; apply Hcode; now rewrite Pt|].
    destruct Hr as [->| ->]; [now left|]. right. left. split; [reflexivity|].
    discriminate.
Qed.

(** ** Runs without and with duplicates *)

Lemma occurrences_nodup (c : jsstring) (ts : list team) :
  NoDup (map code ts) -> occurrences c ts <= 1.
Proof.
  unfold occurrences. induction ts as [|t ts IH]; simpl; [lia|].
  intros H. inversion H as [|? ? Hnot Hnd]; subst. specialize (IH Hnd).
  destruct (str_eqb (code t) c) eqn:E; [|exact IH].
  apply str_eqb_eq in E. simpl.
  destruct (filter (fun t0 => str_eqb (code t0) c) ts) as [|t' l] eqn:F;
    [simpl; lia|].
  exfalso. apply Hnot.
  assert (Hin : In t' (filter (fun t0 => str_eqb (code t0) c) ts))
    by (rewrite F; now left).
  apply filter_In in Hin. destruct Hin as [Hin Hc]. apply str_eqb_eq in Hc.
  rewrite E, <- Hc. now apply in_map.
Qed.

(** X2. With a domain, on the database "fh-aaa", when no code is carried
    by two documents, [main] ends normally right after the aggregation
    with the line "All good, nothing to do. Aborting script.": no [find],
    no classification, no update. *)
Theorem no_duplicates_nothing_to_do (w : world) (dom : jsstring) :
  domain w = Some dom ->
  db_name w = utf16 "fh-aaa" ->
  NoDup (map code (teams w)) ->
  main w
  = (Ok tt,
     with_trace
       [Print (utf16 "--(LOG)> " ++ utf16 "All good, nothing to do. Aborting script.")]
       (after_preamble dom w)).
Proof.
  intros Hd Hn Huniq. rewrite (main_run w dom Hd Hn).
  destruct (relevant (group_by_code (teams w))) as [|row rows] eqn:Hrel;
    [reflexivity|].
  assert (Hin : In row (relevant (group_by_code (teams w))))
    by (rewrite Hrel; now left).
  apply relevant_in in Hin.
  pose proof (occurrences_nodup (group_id row) (teams w) Huniq). lia.
Qed.

Lemma no_duplicates_nothing_to_do_witness :
  let w := start (Some Sample.acme) (VBool false) Sample.fh_aaa
                 [Sample.x1; Sample.solo; Sample.d1] in
  main w
  = (Ok tt,
     with_trace
       [Print (utf16 "--(LOG)> " ++ utf16 "All good, nothing to do. Aborting script.")]
       (after_preamble Sample.acme w)).
Proof.
  apply (no_duplicates_nothing_to_do
           (start (Some Sample.acme) (VBool false) Sample.fh_aaa
                  [Sample.x1; Sample.solo; Sample.d1]) Sample.acme);
    try reflexivity.
  repeat constructor; simpl; intuition discriminate.
Defined.

(** X3. With a domain, on the database "fh-aaa", when some code is
    carried by at least two documents, [main] enters its loop: the first
    row it kept stands for a code carried by at least two documents, and
    the [find] for that code is issued. *)
Theorem duplicates_start_the_loop (w : world) (dom c : jsstring) :
  domain w = Some dom ->
  db_name w = utf16 "fh-aaa" ->
  2 <= occurrences c (teams w) ->
  exists row,
    hd_error (relevant (group_by_code (teams w))) = Some row
    /\ 2 <= occurrences (group_id row) (teams w)
    /\ In (Find (group_id row)) (trace (snd (main w))).
Proof.
  intros Hd Hn Hc. apply relevant_of_duplicate in Hc.
  rewrite (main_run w dom Hd Hn).
  destruct (relevant (group_by_code (teams w))) as [|row rows] eqn:Hrel;
    [destruct Hc|].
  assert (Hin : In row (relevant (group_by_code (teams w))))
    by (rewrite Hrel; now left).
  exists row. split; [reflexivity|]. split; [now apply relevant_in|].
  cbn [List.length Nat.leb for_each]. unfold bind.
  destruct (process_group_step dom row (after_preamble dom w))
    as (r & evs & u & Hrun & _ & Hreads & _).
  rewrite (aggregate_rows_never_skipped (teams w) row Hin) in Hreads.
  assert (Hfind : In (Find (group_id row)) evs).
  { assert (H : In (Find (group_id row)) (filter is_read evs))
      by (rewrite Hreads; now left).
    now apply filter_In in H. }
  rewrite Hrun.
  assert (Htr : In (Find (group_id row))
                   (trace (with_trace evs (apply_update u (after_preamble dom w))))).
  { cbn [with_trace trace]. apply in_or_app. now right. }
  destruct r as [[]|e]; [|exact Htr].
  destruct (for_each_summary dom rows
              (with_trace evs (apply_update u (after_preamble dom w))))
    as (r' & evs' & w' & Hrun' & _ & _ & _ & _ & Htr' & _).
  rewrite Hrun'. cbn [snd]. rewrite Htr'. apply in_or_app. now left.
Qed.

Lemma duplicates_start_the_loop_witness :
  let w := start (Some Sample.acme) (VBool false) Sample.fh_aaa
                 [Sample.solo; Sample.x1; Sample.x2] in
  exists row,
    hd_error (relevant (group_by_code (teams w))) = Some row
    /\ 2 <= occurrences (group_id row) (teams w)
    /\ In (Find (group_id row)) (trace (snd (main w))).
Proof.
  apply (duplicates_start_the_loop
           (start (Some Sample.acme) (VBool false) Sample.fh_aaa
                  [Sample.solo; Sample.x1; Sample.x2])
           Sample.acme (utf16 "X"));
    solve [reflexivity | unfold occurrences; simpl; lia].
Defined.

(** ** Teams without business objects *)

(** X4. [createTeamCode] fails exactly on a team whose business-objects
    mapping is empty, and then with a TypeError: the lowest level is
    [undefined], the property "undefined" is missing, and [join] is called
    on [undefined]. It throws nothing else. *)
Theorem createTeamCode_throws_iff_no_keys (dom : jsstring) (t : team) :
  (createTeamCode dom t = Throw TypeError <-> business_objects t = [])
  /\ (forall e, createTeamCode dom t = Throw e -> e = TypeError)
  /\ (business_objects t = [] -> getLowestLevel (Some t) = Ok None).
Proof.
  split; [split|split].
  - intros H. destruct (business_objects t) as [|kv o] eqn:E; [reflexivity|].
    assert (Hne : business_objects t <> []) by congruence.
    destruct (createTeamCode_value dom t Hne) as (lv & bos & _ & _ & _ & _ & Hc).
    congruence.
  - apply createTeamCode_no_keys.
  - apply createTeamCode_throws.
  - apply getLowestLevel_no_keys.
Qed.

(** X5. A pair on different levels, both with users, whose first
    document has no business objects: [checkDups] says "can be migrated",
    the line "migrating ..." is printed, [createTeamCode] throws, and the
    iteration ends with a TypeError without any update or would-be
    update; the collection is unchanged. *)
Theorem eligible_pair_without_keys_aborts
        (dom : jsstring) (row : group) (w : world) (fa fb : team) (rest : list team) :
  truthy (group_defaultTeam row) = false ->
  find_teams (group_id row) (teams w) = fa :: fb :: rest ->
  business_objects fa = [] ->
  business_objects fb <> [] ->
  users fa <> [] -> users fb <> [] ->
  exists evs,
    fst (checkDups (fa :: fb :: rest) w) = Ok true
    /\ process_group dom row w
       = (Throw TypeError, with_trace (Find (group_id row) :: evs) w)
    /\ forallb is_print evs = true.
Proof.
  intros Hflag Hfind Ha Hb Hua Hub.
  assert (Hel : eligible fa fb = true).
  { apply eligible_true. split; [|auto].
    rewrite (getLowestLevel_no_keys fa Ha).
    destruct (sort_head_longest _ (keys_nonempty _ _ Hb)) as (k & Hk & _).
    rewrite getLowestLevel_some. unfold lowest_of. rewrite Hk. discriminate. }
  destruct (checkDups_pair fa fb) as (lines & _ & Hc).
  destruct (process_group_pair dom fa fb (truthy (dryrun w)))
    as (r & evs & u & Hrun & _ & Hthrow & _).
  destruct (Hthrow TypeError Hel (createTeamCode_no_keys dom fa Ha))
    as (-> & -> & Hp).
  exists evs. split; [rewrite Hc, Hel; reflexivity|].
  split; [now apply (Hrun row rest w) | exact Hp].
Qed.

Lemma eligible_pair_without_keys_aborts_witness :
  let w := start (Some Sample.acme) (VBool false) Sample.fh_aaa
                 [Sample.bare; Sample.x2] in
  exists evs,
    fst (checkDups [Sample.bare; Sample.x2] w) = Ok true
    /\ process_group Sample.acme Sample.row_X w
       = (Throw TypeError, with_trace (Find (group_id Sample.row_X) :: evs) w)
    /\ forallb is_print evs = true.
Proof.
  apply (eligible_pair_without_keys_aborts Sample.acme Sample.row_X _
           Sample.bare Sample.x2 []);
    solve [reflexivity | discriminate].
Defined.

(** X6. Two documents that both lack business objects are on the same
    level ([undefined === undefined]): [checkDups] returns [false] for
    them whatever their users, and nothing is thrown. *)
Theorem pair_without_keys_not_eligible
        (fa fb : team) (rest : list team) (w : world) :
  business_objects fa = [] ->
  business_objects fb = [] ->
  exists evs,
    checkDups (fa :: fb :: rest) w = (Ok false, with_trace evs w)
    /\ forallb is_print evs = true.
Proof.
  intros Ha Hb.
  assert (Hel : eligible fa fb = false).
  { apply eligible_false. left.
    now rewrite (getLowestLevel_no_keys fa Ha), (getLowestLevel_no_keys fb Hb). }
  destruct (checkDups_pair fa fb) as (evs & Hp & Hc).
  exists evs. rewrite Hc, Hel. auto.
Qed.

Lemma pair_without_keys_not_eligible_witness :
  let w := start (Some Sample.acme) (VBool false) Sample.fh_aaa
                 [Sample.bare; Sample.bare] in
  exists evs,
    checkDups [Sample.bare; Sample.bare] w = (Ok false, with_trace evs w)
    /\ forallb is_print evs = true.
Proof.
  apply (pair_without_keys_not_eligible Sample.bare Sample.bare []);
    reflexivity.
Defined.

(** X7. The verdict of [checkDups] does not depend on the order of the
    two documents (which of them is migrated does). *)
Theorem checkDups_verdict_symmetric
        (fa fb : team) (rest rest' : list team) (w w' : world) :
  fst (checkDups (fa :: fb :: rest) w) = fst (checkDups (fb :: fa :: rest') w').
Proof.
  destruct (checkDups_pair fa fb) as (evs & _ & Hc).
  destruct (checkDups_pair fb fa) as (evs' & _ & Hc').
  rewrite Hc, Hc'. cbn [fst]. f_equal. unfold eligible.
  assert (Hsym : opt_str_eqb (lowest_of fa) (lowest_of fb)
                 = opt_str_eqb (lowest_of fb) (lowest_of fa)).
  { destruct (lowest_of fa), (lowest_of fb); simpl; auto using str_eqb_sym. }
  rewrite Hsym.
  destruct (opt_str_eqb (lowest_of fb) (lowest_of fa)),
           (has_users fa), (has_users fb); reflexivity.
Qed.

(** ** Invariants of a run *)

Lemma createTeamCode_clean (dom : jsstring) (t : team) (c : jsstring) :
  createTeamCode dom t = Ok c ->
  Forall (fun ch => is_space ch = false) c.
Proof.
  intros H.
  destruct (createTeamCode_value dom t (createTeamCode_ok_keys dom t c H))
    as (lv & bos & _ & _ & _ & _ & Hc).
  assert (E : c = replace_spaces (dom ++ dash ++ dash_joined bos ++ dash ++ name t))
    by congruence.
  subst c. apply replace_spaces_clean.
Qed.

(** X8. Whatever the globals and the collection, [main] leaves the domain
    and the name of the database as they were, only adds to the output,
    and neither adds nor removes a document: the [_id]s of the collection,
    in order, are the same at the end. *)
Theorem main_frame (w : world) :
  exists r evs w',
    main w = (r, w')
    /\ domain w' = domain w
    /\ db_name w' = db_name w
    /\ trace w' = trace w ++ evs
    /\ map _id (teams w') = map _id (teams w)
    /\ List.length (teams w') = List.length (teams w).
Proof.
  destruct (main_summary w) as (r & evs & w' & Hrun & Hd & Hn & Htr & Hids & _).
  exists r, evs, w'. repeat (split; [assumption|]).
  rewrite <- (length_map _id (teams w')), Hids. apply length_map.
Qed.

(** X9. When the [_id]s of the collection are unique, the collection at
    the end of [main] is the one at the start with the [code] of some
    non-default documents replaced: no other field changes, and every
    default team is still there as it was. *)
Theorem main_changes_codes_only (w : world) :
  NoDup (map _id (teams w)) ->
  code_only_changes (teams w) (teams (snd (main w)))
  /\ (forall t, In t (teams w) -> defaultTeam t = true ->
                In t (teams (snd (main w))))
  /\ map name (teams (snd (main w))) = map name (teams w)
  /\ map users (teams (snd (main w))) = map users (teams w)
  /\ map business_objects (teams (snd (main w))) = map business_objects (teams w)
  /\ map defaultTeam (teams (snd (main w))) = map defaultTeam (teams w).
Proof.
  intros Hnd.
  destruct (main_summary w) as (r & evs & w' & Hrun & _ & _ & _ & _ & _ & _ & _
                                & Hcode & _).
  rewrite Hrun. cbn [snd]. specialize (Hcode Hnd). split; [exact Hcode|].
  unfold code_only_changes in Hcode.
  induction Hcode as [|t t' ts ts' Ht Hrest IH].
  - repeat split; auto; intros t [].
  - inversion Hnd as [|? ? _ Hnd']; subst.
    destruct (IH Hnd') as (Hdef & Hname & Husers & Hbo & Hdt); clear IH.
    assert (Hfields : name t' = name t /\ users t' = users t
                      /\ business_objects t' = business_objects t
                      /\ defaultTeam t' = defaultTeam t
                      /\ (defaultTeam t = true -> t' = t)).
    { destruct Ht as [->|(Hf & c & ->)]; [repeat split; auto|].
      repeat split; auto. congruence. }
    destruct Hfields as (F1 & F2 & F3 & F4 & F5).
    split; [|simpl; repeat split; congruence].
    intros x [<-|Hx] Hdx; [left; now apply F5 | right; now apply Hdef].
Qed.

Lemma main_changes_codes_only_witness :
  let w := start (Some Sample.acme) (VBool false) Sample.fh_aaa
                 [Sample.d1; Sample.x1; Sample.x2; Sample.d2] in
  code_only_changes (teams w) (teams (snd (main w)))
  /\ (forall t, In t (teams w) -> defaultTeam t = true ->
                In t (teams (snd (main w))))
  /\ map name (teams (snd (main w))) = map name (teams w)
  /\ map users (teams (snd (main w))) = map users (teams w)
  /\ map business_objects (teams (snd (main w))) = map business_objects (teams w)
  /\ map defaultTeam (teams (snd (main w))) = map defaultTeam (teams w).
Proof.
  apply (main_changes_codes_only
           (start (Some Sample.acme) (VBool false) Sample.fh_aaa
                  [Sample.d1; Sample.x1; Sample.x2; Sample.d2])).
  repeat constructor; simpl; intuition discriminate.
Defined.

(** X10. Every update [main] issues, and every would-be update it prints,
    has the document's own [_id] as its query, concerns a non-default
    team, and carries as [code] what [createTeamCode] computes from that
    very document under the domain of the run: a non-empty string without
    whitespace. *)
Theorem main_writes_well_formed (w : world) (dom : jsstring) :
  domain w = Some dom ->
  exists evs,
    trace (snd (main w)) = trace w ++ evs
    /\ forall id document,
         In (Update id document) evs \/ In (PrintJson id document) evs ->
         id = _id document
         /\ defaultTeam document = false
         /\ createTeamCode dom document = Ok (code document)
         /\ code document <> []
         /\ Forall (fun ch => is_space ch = false) (code document).
Proof.
  intros Hd.
  destruct (main_summary w) as (r & evs & w' & Hrun & _ & _ & Htr & _ & _ & _
                                & Hwf & _).
  exists evs. rewrite Hrun. split; [exact Htr|].
  specialize (Hwf dom Hd). rewrite Forall_forall in Hwf.
  intros id document Hin.
  assert (H : id = _id document /\ defaultTeam document = false
              /\ createTeamCode dom document = Ok (code document)).
  { destruct Hin as [Hin|Hin]; exact (Hwf _ Hin). }
  destruct H as (Hid & Hdt & Hc). repeat (split; [assumption|]).
  split; [apply (createTeamCode_nonempty dom document _ Hc)
         | apply (createTeamCode_clean dom document _ Hc)].
Qed.

Lemma main_writes_well_formed_witness :
  let w := start (Some Sample.acme) (VBool false) Sample.fh_aaa
                 [Sample.x1; Sample.x2; Sample.x3] in
  exists evs,
    trace (snd (main w)) = trace w ++ evs
    /\ forall id document,
         In (Update id document) evs \/ In (PrintJson id document) evs ->
         id = _id document
         /\ defaultTeam document = false
         /\ createTeamCode Sample.acme document = Ok (code document)
         /\ code document <> []
         /\ Forall (fun ch => is_space ch = false) (code document).
Proof.
  apply (main_writes_well_formed
           (start (Some Sample.acme) (VBool false) Sample.fh_aaa
                  [Sample.x1; Sample.x2; Sample.x3]) Sample.acme).
  reflexivity.
Defined.

(** The totals of a run: no more updates than duplicated codes, and no
    more reads than that besides the one aggregation. *)
Theorem main_bounded_work (w : world) :
  exists evs,
    trace (snd (main w)) = trace w ++ evs
    /\ List.length (filter is_update evs)
       <= List.length (relevant (group_by_code (teams w)))
    /\ List.length (filter is_read evs)
       <= 1 + List.length (relevant (group_by_code (teams w))).
Proof.
  destruct (main_summary w) as (r & evs & w' & Hrun & _ & _ & Htr & _ & Hu & Hr & _).
  exists evs. rewrite Hrun. auto.
Qed.

(** X12. [main] ends in one of four ways: normally; with the Error
    "Domain must be defined", when the domain is missing; with the Error
    "Script must be run on fh-aaa database", when the name of the database
    differs; or with a TypeError, which takes at least one duplicated
    code. *)
Theorem main_outcomes (w : world) :
  fst (main w) = Ok tt
  \/ (fst (main w) = Throw TypeError
      /\ exists c, 2 <= occurrences c (teams w))
  \/ (fst (main w) = Throw (Error (utf16 "Domain must be defined"))
      /\ domain w = None)
  \/ (fst (main w) = Throw (Error (utf16 "Script must be run on fh-aaa database"))
      /\ db_name w <> utf16 "fh-aaa").
Proof.
  destruct (main_summary w) as (r & evs & w' & Hrun & _ & _ & _ & _ & _ & _ & _
                                & _ & Hout).
  rewrite Hrun. cbn [fst].
  destruct Hout as [H|[[H Hne]|[H|H]]]; auto.
  right. left. split; [exact H|].
  destruct (relevant (group_by_code (teams w))) as [|row rows] eqn:Hrel;
    [congruence|].
  exists (group_id row). apply relevant_in. rewrite Hrel. now left.
Qed.

(** ** What a migration achieves *)

Lemma find_after_replace (g c : jsstring) (fa : team) (rest ts : list team) :
  NoDup (map _id ts) ->
  find_teams g ts = fa :: rest ->
  c <> g ->
  find_teams g (replace_first (_id fa) (set_code fa c) ts) = rest.
Proof.
  intros Hnd Hfind Hc. induction ts as [|t ts IH]; [discriminate|].
  simpl in Hnd. inversion Hnd as [|? ? Hnot Hnd']; subst.
  assert (Hin : In fa (t :: ts)).
  { assert (H : In fa (find_teams g (t :: ts))) by (rewrite Hfind; now left).
    apply find_teams_in in H. tauto. }
  simpl. destruct (str_eqb (_id t) (_id fa)) eqn:E.
  - apply str_eqb_eq in E.
    assert (t = fa).
    { destruct Hin as [->|Hin]; [reflexivity|].
      exfalso. apply Hnot. rewrite E. now apply in_map. }
    subst t. unfold find_teams in *. simpl in *.
    assert (Hm : negb (defaultTeam fa) && str_eqb (code fa) g = true).
    { assert (H : In fa (fa :: rest)) by now left.
      rewrite <- Hfind in H.
      destruct (negb (defaultTeam fa) && str_eqb (code fa) g); [reflexivity|].
      apply filter_In in H. destruct H as [H _].
      exfalso. apply Hnot. now apply in_map. }
    rewrite Hm in Hfind. injection Hfind as Hfind.
    assert (Hn : str_eqb c g = false) by now apply str_eqb_neq.
    rewrite Hn, andb_false_r. exact Hfind.
  - unfold find_teams in *. simpl in *.
    destruct (negb (defaultTeam t) && str_eqb (code t) g) eqn:Hm.
    + injection Hfind as -> _. rewrite str_eqb_refl in E. discriminate.
    + apply IH; [exact Hnd' | exact Hfind].
Qed.

Lemma replace_first_in (fa : team) (c : jsstring) (ts : list team) :
  In fa ts -> In (set_code fa c) (replace_first (_id fa) (set_code fa c) ts).
Proof.
  induction ts as [|t ts IH]; [intros []|]. simpl.
  destruct (str_eqb (_id t) (_id fa)) eqn:E; [intros _; now left|].
  intros [->|Hin]; [rewrite str_eqb_refl in E; discriminate|].
  right. now apply IH.
Qed.

(** X13. When [dryrun] is falsy and the [_id]s are unique, the iteration
    on a group whose first two documents are on different levels and both
    have users, and whose new code differs from the shared one, takes the
    first document out of the group: afterwards the [find] for the shared
    code returns the former result without its first document, and the
    first document is found under its new code. *)
Theorem migration_takes_first_out_of_group
        (dom : jsstring) (row : group) (w : world) (fa fb : team)
        (rest : list team) (c : jsstring) :
  truthy (group_defaultTeam row) = false ->
  truthy (dryrun w) = false ->
  NoDup (map _id (teams w)) ->
  find_teams (group_id row) (teams w) = fa :: fb :: rest ->
  getLowestLevel (Some fa) <> getLowestLevel (Some fb) ->
  users fa <> [] -> users fb <> [] ->
  createTeamCode dom fa = Ok c ->
  c <> group_id row ->
  exists w',
    process_group dom row w = (Ok tt, w')
    /\ find_teams (group_id row) (teams w') = fb :: rest
    /\ In (set_code fa c) (find_teams c (teams w')).
Proof.
  intros Hflag Hdry Hnd Hfind Hlv Hua Hub Hc Hneq.
  assert (Hel : eligible fa fb = true) by (apply eligible_true; auto).
  destruct (process_group_pair dom fa fb false)
    as (r & evs & u & Hrun & _ & _ & Hok).
  destruct (Hok c Hel Hc) as (-> & _ & ->).
  eexists. split; [now apply (Hrun row rest w)|].
  cbn [with_trace apply_update with_teams teams].
  split; [now apply find_after_replace|].
  assert (Hin : In fa (find_teams (group_id row) (teams w)))
    by (rewrite Hfind; now left).
  apply find_teams_in in Hin. destruct Hin as (Hin & Hdt & _).
  apply find_teams_in. split; [now apply replace_first_in|]. now split.
Qed.

Lemma migration_takes_first_out_of_group_witness :
  let w := start (Some Sample.acme) (VBool false) Sample.fh_aaa
                 [Sample.x1; Sample.x2; Sample.x3] in
  exists w',
    process_group Sample.acme Sample.row_X w = (Ok tt, w')
    /\ find_teams (group_id Sample.row_X) (teams w') = [Sample.x2; Sample.x3]
    /\ In (set_code Sample.x1 (utf16 "acme-g1-Sales"))
          (find_teams (utf16 "acme-g1-Sales") (teams w')).
Proof.
  apply (migration_takes_first_out_of_group Sample.acme Sample.row_X _
           Sample.x1 Sample.x2 [Sample.x3] (utf16 "acme-g1-Sales"));
    try solve [reflexivity | discriminate].
  repeat constructor; simpl; intuition discriminate.
Defined.

(** ** Output *)

Lemma replace_spaces_fixed (s : jsstring) :
  Forall (fun ch => is_space ch = false) s -> replace_spaces s = s.
Proof.
  induction 1 as [|ch s Hch _ IH]; [reflexivity|].
  simpl. rewrite Hch. f_equal. exact IH.
Qed.

(** X14. Replacing whitespace is idempotent and keeps the length; a
    string without whitespace, such as a computed code, is left as it
    is. *)
Theorem replace_spaces_idempotent (s : jsstring) :
  replace_spaces (replace_spaces s) = replace_spaces s
  /\ str_length (replace_spaces s) = str_length s
  /\ (Forall (fun ch => is_space ch = false) s -> replace_spaces s = s)
  /\ (forall dom t c, createTeamCode dom t = Ok c -> replace_spaces c = c).
Proof.
  split; [apply replace_spaces_fixed, replace_spaces_clean|].
  split; [apply replace_spaces_length|].
  split; [apply replace_spaces_fixed|].
  intros dom t c Hc. apply replace_spaces_fixed.
  now apply (createTeamCode_clean dom t).
Qed.

Section Emits.
Variable P : event -> Prop.

Lemma emits_ret (A : Type) (a : A) : only_emits P (ret a).
Proof. intros w. exists []. simpl. now rewrite app_nil_r. Qed.

Lemma emits_throw (A : Type) (e : exn) : only_emits P (@throw A e).
Proof. intros w. exists []. simpl. now rewrite app_nil_r. Qed.

Lemma emits_lift (A : Type) (r : result A) : only_emits P (lift r).
Proof. intros w. exists []. simpl. now rewrite app_nil_r. Qed.

Lemma emits_deref (A : Type) (o : option A) : only_emits P (deref o).
Proof. destruct o; [apply emits_ret | apply emits_throw]. Qed.

Lemma emits_get_domain : only_emits P get_domain.
Proof. intros w. exists []. simpl. now rewrite app_nil_r. Qed.

Lemma emits_get_dryrun : only_emits P get_dryrun.
Proof. intros w. exists []. simpl. now rewrite app_nil_r. Qed.

Lemma emits_set_dryrun (v : value) : only_emits P (set_dryrun v).
Proof. intros w. exists []. simpl. now rewrite app_nil_r. Qed.

Lemma emits_bind (A B : Type) (m : M A) (k : A -> M B) :
  only_emits P m -> (forall a, only_emits P (k a)) -> only_emits P (bind m k).
Proof.
  intros Hm Hk w. destruct (Hm w) as (evs & Htr & Hall). unfold bind.
  destruct (m w) as [[a|e] w1]; simpl in Htr.
  - destruct (Hk a w1) as (evs' & Htr' & Hall').
    exists (evs ++ evs'). rewrite Htr', Htr, app_assoc.
    split; [reflexivity | now apply Forall_app].
  - exists evs. auto.
Qed.

Lemma emits_one (A : Type) (a : world -> A) (e : event) (f : world -> world) :
  P e -> (forall w, trace (f w) = trace w) ->
  only_emits P (fun w => (Ok (a w), emit e (f w))).
Proof.
  intros He Hf w. exists [e]. simpl. rewrite Hf. split; [reflexivity|].
  now constructor.
Qed.
End Emits.

Lemma emits_log (msg : jsstring) : only_emits log_line (log msg).
Proof.
  apply (emits_one log_line _ (fun _ => tt) (Print (utf16 "--(LOG)> " ++ msg)) (fun w => w));
    [apply starts_with_app | reflexivity].
Qed.

Ltac emits_log_lines :=
  repeat first
    [ apply emits_bind; [|intros ?]
    | apply emits_ret | apply emits_throw | apply emits_lift
    | apply emits_deref | apply emits_get_domain | apply emits_get_dryrun
    | apply emits_set_dryrun | apply emits_log
    | match goal with
      | |- only_emits _ (printjson ?i ?d) =>
          apply (emits_one log_line _ (fun _ => tt) (PrintJson i d) (fun w => w));
          [exact I | reflexivity]
      | |- only_emits _ (db_teams_find ?c) =>
          apply (emits_one log_line _ (fun w => find_teams c (teams w)) (Find c) (fun w => w));
          [exact I | reflexivity]
      | |- only_emits _ (db_teams_update ?i ?d) =>
          apply (emits_one log_line _ (fun _ => tt) (Update i d)
                   (fun w => mkWorld (domain w) (dryrun w) (db_name w)
                                     (replace_first i d (teams w)) (trace w)));
          [exact I | reflexivity]
      | |- only_emits _ db_getName =>
          apply (emits_one log_line _ db_name GetName (fun w => w));
          [exact I | reflexivity]
      | |- only_emits _ db_teams_aggregate =>
          apply (emits_one log_line _ (fun w => group_by_code (teams w))
                   Aggregate (fun w => w));
          [exact I | reflexivity]
      | |- only_emits _ (if ?b then _ else _) => destruct b
      end ].

Lemma checkDups_log_lines (dups : list team) : only_emits log_line (checkDups dups).
Proof. unfold checkDups. emits_log_lines. Qed.

Lemma process_group_log_lines (dom : jsstring) (row : group) :
  only_emits log_line (process_group dom row).
Proof.
  unfold process_group. emits_log_lines.
Qed.

Lemma for_each_log_lines (dom : jsstring) (rows : list group) :
  only_emits log_line (for_each dom rows).
Proof.
  induction rows as [|row rows IH]; simpl; [apply emits_ret|].
  apply emits_bind; [apply process_group_log_lines | intros _; exact IH].
Qed.

(** X15. Every line [main] prints with [print] went through [log]: it
    starts with "--(LOG)> ". This holds for every run, whichever way it
    ends. *)
Theorem main_prints_log_lines (w : world) :
  exists evs,
    trace (snd (main w)) = trace w ++ evs
    /\ forall line, In (Print line) evs ->
                    starts_with (utf16 "--(LOG)> ") line = true.
Proof.
  assert (H : only_emits log_line main).
  { unfold main. apply emits_bind; [apply emits_get_domain|].
    intros [dom|]; [|apply emits_throw].
    emits_log_lines. apply for_each_log_lines. }
  destruct (H w) as (evs & Htr & Hall). exists evs. split; [exact Htr|].
  intros line Hin. rewrite Forall_forall in Hall. exact (Hall _ Hin).
Qed.

(** X16. On a pair, [checkDups] prints one line when both documents have
    users (the conflict or the "can be migrated" line) and three lines
    otherwise (the remark and the user count of each document); it prints
    nothing else and changes nothing. *)
Theorem checkDups_line_count (fa fb : team) (rest : list team) (w : world) :
  exists evs,
    checkDups (fa :: fb :: rest) w = (Ok (eligible fa fb), with_trace evs w)
    /\ forallb is_print evs = true
    /\ List.length evs = if has_users fa && has_users fb then 1 else 3.
Proof.
  unfold eligible.
  destruct (opt_str_eqb (lowest_of fa) (lowest_of fb)) eqn:E1,
           (has_users fa) eqn:E2, (has_users fb) eqn:E3;
    eexists;
    (split; [run_script; rewrite E1, E2, E3; cbv beta iota;
             cbn [andb negb]; rewrite ?emit_with_trace, ?with_trace_app;
             reflexivity|]);
    split; reflexivity.
Qed.

(** X17. A dry run announces what a live run does: on the same
    collection, the iteration for a row ends the same way with [dryrun]
    truthy as with [dryrun] falsy, and the would-be update it prints (if
    any) has the query and the document of the update the live iteration
    issues; the dry iteration itself changes nothing. *)
Theorem dry_iteration_announces_live_one
        (dom : jsstring) (row : group) (wd wl : world) :
  truthy (dryrun wd) = true ->
  truthy (dryrun wl) = false ->
  teams wd = teams wl ->
  exists r evs_d evs_l u,
    process_group dom row wd = (r, with_trace evs_d wd)
    /\ process_group dom row wl = (r, with_trace evs_l (apply_update u wl))
    /\ non_log evs_d = map announced (non_log evs_l).
Proof.
  intros Hd Hl Hteams.
  destruct (truthy (group_defaultTeam row)) eqn:Hflag.
  { exists (Ok tt), [], [], None. cbn [apply_update]. rewrite !with_trace_nil.
    rewrite !process_group_skip by assumption. auto. }
  destruct (find_teams (group_id row) (teams wl)) as [|fa [|fb rest]] eqn:Hfind.
  1,2: exists (Throw TypeError), [Find (group_id row)], [Find (group_id row)], None;
       cbn [apply_update];
       rewrite !process_group_short
         by (try assumption; rewrite ?Hteams, Hfind; simpl; lia);
       auto.
  destruct (process_group_pair dom fa fb true)
    as (rd & evd & ud & Hrund & Hnod & Hthrowd & Hokd).
  destruct (process_group_pair dom fa fb false)
    as (rl & evl & ul & Hrunl & Hnol & Hthrowl & Hokl).
  assert (Hfind' : find_teams (group_id row) (teams wd) = fa :: fb :: rest)
    by now rewrite Hteams.
  rewrite (Hrund row rest wd Hflag Hd Hfind'), (Hrunl row rest wl Hflag Hl Hfind).
  assert (Hboth : rd = rl /\ ud = None
                  /\ non_log evd = map announced (non_log evl)).
  { destruct (eligible fa fb) eqn:Hel.
    - destruct (createTeamCode dom fa) as [c|e] eqn:Hc.
      + destruct (Hokd c eq_refl eq_refl) as (-> & Hd' & ->).
        destruct (Hokl c eq_refl eq_refl) as (-> & Hl' & _).
        rewrite Hd', Hl'. auto.
      + destruct (Hthrowd e eq_refl eq_refl) as (-> & -> & Hpd).
        destruct (Hthrowl e eq_refl eq_refl) as (-> & _ & Hpl).
        rewrite (prints_not_actions _ Hpd), (prints_not_actions _ Hpl). auto.
    - destruct (Hnod eq_refl) as (-> & -> & Hpd).
      destruct (Hnol eq_refl) as (-> & _ & Hpl).
      rewrite (prints_not_actions _ Hpd), (prints_not_actions _ Hpl). auto. }
  destruct Hboth as (-> & -> & Hann).
  exists rl, (Find (group_id row) :: evd), (Find (group_id row) :: evl), ul.
  cbn [apply_update]. split; [reflexivity|]. split; [reflexivity|].
  unfold non_log in *. simpl. now f_equal.
Qed.

Lemma dry_iteration_announces_live_one_witness :
  let wd := start (Some Sample.acme) (VBool true) Sample.fh_aaa
                  [Sample.x1; Sample.x2; Sample.x3] in
  let wl := start (Some Sample.acme) (VBool false) Sample.fh_aaa
                  [Sample.x1; Sample.x2; Sample.x3] in
  exists r evs_d evs_l u,
    process_group Sample.acme Sample.row_X wd = (r, with_trace evs_d wd)
    /\ process_group Sample.acme Sample.row_X wl
       = (r, with_trace evs_l (apply_update u wl))
    /\ non_log evs_d = map announced (non_log evs_l).
Proof.
  apply (dry_iteration_announces_live_one Sample.acme Sample.row_X
           (start (Some Sample.acme) (VBool true) Sample.fh_aaa
                  [Sample.x1; Sample.x2; Sample.x3])
           (start (Some Sample.acme) (VBool false) Sample.fh_aaa
                  [Sample.x1; Sample.x2; Sample.x3]));
    reflexivity.
Defined.

(** ** The work of a run, code by code *)





